(** * EHMS core: acquisition pipeline and alert engine

    A shallow embedding of [ehms_types.h], [alert_manager.c] and
    [data_acquisition.c], with the properties of the two modules stated
    and proved (or refuted at a concrete input) over it.

    Conventions.
    - C unsigned integers are [Z] with the wrap-around written out
      ([wrap32]); enumerations are inductive types with their numeric
      value given by a [_val] function.
    - C [float] is IEEE-754 binary32, modelled by the standard library's
      [spec_float] at precision 24 and maximal exponent 128.
    - Fixed-size C arrays are lists; an element is read with [!!!] and
      written with [<[i:=x]>].
    - Struct fields keep their C names; where two structs share a field
      name the later one gets a short prefix ([alert_], [thr_], [src_],
      [cfg_]). *)

From Stdlib Require Import ZArith String Ascii Lia.
From Stdlib Require Import Floats.SpecFloat.
From stdpp Require Import base list strings pretty.

Local Open Scope Z_scope.

(* ===================================================================== *)
(** * Machine integers and floats                                         *)
(* ===================================================================== *)

(** [uint32_t] arithmetic wraps modulo 2^32. *)
Definition wrap32 (z : Z) : Z := z mod 2 ^ 32.

(** Conversion of a 32-bit pattern to [int] (two's complement). *)
Definition to_int32 (z : Z) : Z := (z + 2 ^ 31) mod 2 ^ 32 - 2 ^ 31.

(** Binary32 operations. *)
Definition f32_of_Z (z : Z) : spec_float := binary_normalize 24 128 z 0 false.
Definition f32_mul : spec_float -> spec_float -> spec_float := SFmul 24 128.
Definition f32_add : spec_float -> spec_float -> spec_float := SFadd 24 128.
Definition f32_div : spec_float -> spec_float -> spec_float := SFdiv 24 128.
(** C's [a >= b], [a <= b], [a < b], [a > b] on floats (false on NaN). *)
Definition f32_ge (a b : spec_float) : bool := SFleb b a.
Definition f32_le (a b : spec_float) : bool := SFleb a b.
Definition f32_lt (a b : spec_float) : bool := SFltb a b.
Definition f32_gt (a b : spec_float) : bool := SFltb b a.

(* ===================================================================== *)
(** * ehms_types.h                                                        *)
(* ===================================================================== *)

Definition EHMS_MAX_ENGINES : Z := 4.
Definition EHMS_MAX_SAMPLE_RATE_HZ : Z := 100.
Definition EHMS_MAX_ACTIVE_ALERTS : Z := 32.
Definition EHMS_ARINC429_BUS_COUNT : Z := 4.
Definition EHMS_1553_RT_ADDRESS : Z := 5.

(** [ehms_engine_id_t]: the enumerators are the numbers 0..4. *)
Definition EHMS_ENGINE_1 : Z := 0.
Definition EHMS_ENGINE_2 : Z := 1.
Definition EHMS_ENGINE_3 : Z := 2.
Definition EHMS_ENGINE_4 : Z := 3.
Definition EHMS_ENGINE_COUNT : Z := 4.

Inductive ehms_system_state_t :=
  | EHMS_STATE_OFF | EHMS_STATE_INIT | EHMS_STATE_PBIT | EHMS_STATE_NORMAL
  | EHMS_STATE_DEGRADED | EHMS_STATE_MAINTENANCE | EHMS_STATE_FAULT.

Inductive ehms_alert_level_t :=
  | EHMS_ALERT_NONE | EHMS_ALERT_STATUS | EHMS_ALERT_ADVISORY
  | EHMS_ALERT_CAUTION | EHMS_ALERT_WARNING.

Definition alert_level_val (l : ehms_alert_level_t) : Z :=
  match l with
  | EHMS_ALERT_NONE => 0
  | EHMS_ALERT_STATUS => 1
  | EHMS_ALERT_ADVISORY => 2
  | EHMS_ALERT_CAUTION => 3
  | EHMS_ALERT_WARNING => 4
  end.

Inductive ehms_param_status_t :=
  | EHMS_PARAM_VALID | EHMS_PARAM_STALE | EHMS_PARAM_FAILED
  | EHMS_PARAM_NCD | EHMS_PARAM_TEST.

Definition param_status_val (s : ehms_param_status_t) : Z :=
  match s with
  | EHMS_PARAM_VALID => 0
  | EHMS_PARAM_STALE => 1
  | EHMS_PARAM_FAILED => 2
  | EHMS_PARAM_NCD => 3
  | EHMS_PARAM_TEST => 4
  end.

(** [ehms_param_id_t]: used as an array index, so kept as a number. *)
Definition EHMS_PARAM_N1 : Z := 0.
Definition EHMS_PARAM_N2 : Z := 1.
Definition EHMS_PARAM_EGT : Z := 2.
Definition EHMS_PARAM_FF : Z := 3.
Definition EHMS_PARAM_OIL_TEMP : Z := 4.
Definition EHMS_PARAM_OIL_PRESS : Z := 5.
Definition EHMS_PARAM_OIL_QTY : Z := 6.
Definition EHMS_PARAM_VIB_FAN : Z := 7.
Definition EHMS_PARAM_VIB_CORE : Z := 8.
Definition EHMS_PARAM_EPR : Z := 9.
Definition EHMS_PARAM_COUNT : Z := 48.

Inductive ehms_health_status_t :=
  | EHMS_HEALTH_NORMAL | EHMS_HEALTH_MONITOR | EHMS_HEALTH_CAUTION
  | EHMS_HEALTH_ACTION_REQ | EHMS_HEALTH_CRITICAL.

Definition health_status_val (h : ehms_health_status_t) : Z :=
  match h with
  | EHMS_HEALTH_NORMAL => 0
  | EHMS_HEALTH_MONITOR => 1
  | EHMS_HEALTH_CAUTION => 2
  | EHMS_HEALTH_ACTION_REQ => 3
  | EHMS_HEALTH_CRITICAL => 4
  end.

Inductive ehms_result_t :=
  | EHMS_OK | EHMS_ERROR | EHMS_ERROR_PARAM | EHMS_ERROR_RANGE
  | EHMS_ERROR_TIMEOUT | EHMS_ERROR_BUSY | EHMS_ERROR_MEMORY
  | EHMS_ERROR_HARDWARE | EHMS_ERROR_CONFIG | EHMS_ERROR_NOT_INIT
  | EHMS_ERROR_CRC.

Definition result_is_ok (r : ehms_result_t) : bool :=
  match r with EHMS_OK => true | _ => false end.

Record ehms_timestamp_t := {
  year : Z; month : Z; day : Z; hour : Z; minute : Z; second : Z;
  millisecond : Z
}.

Record ehms_parameter_t := {
  param_id : Z;
  status : ehms_param_status_t;
  raw_value : Z;
  eng_value : spec_float;
  timestamp : ehms_timestamp_t;
  source_bus : Z
}.

Record ehms_engine_snapshot_t := {
  engine_id : Z;
  sample_time : ehms_timestamp_t;
  flight_phase : Z;
  parameters : list ehms_parameter_t;      (* [EHMS_PARAM_COUNT] *)
  health_status : ehms_health_status_t;
  crc32 : Z
}.

Record ehms_alert_t := {
  alert_id : Z;
  level : ehms_alert_level_t;
  alert_engine_id : Z;
  alert_param_id : Z;
  onset_time : ehms_timestamp_t;
  clear_time : ehms_timestamp_t;
  is_active : bool;
  is_latched : bool;
  is_inhibited : bool;
  message : string;                        (* char[64] *)
  ecam_code : Z
}.

(** The all-zero objects a [memset] to 0 leaves behind. *)
Definition timestamp_zero : ehms_timestamp_t :=
  {| year := 0; month := 0; day := 0; hour := 0; minute := 0; second := 0;
     millisecond := 0 |}.

Definition parameter_zero : ehms_parameter_t :=
  {| param_id := 0; status := EHMS_PARAM_VALID; raw_value := 0;
     eng_value := S754_zero false; timestamp := timestamp_zero;
     source_bus := 0 |}.

Definition snapshot_zero : ehms_engine_snapshot_t :=
  {| engine_id := 0; sample_time := timestamp_zero; flight_phase := 0;
     parameters := replicate (Z.to_nat EHMS_PARAM_COUNT) parameter_zero;
     health_status := EHMS_HEALTH_NORMAL; crc32 := 0 |}.

Definition alert_zero : ehms_alert_t :=
  {| alert_id := 0; level := EHMS_ALERT_NONE; alert_engine_id := 0;
     alert_param_id := 0; onset_time := timestamp_zero;
     clear_time := timestamp_zero; is_active := false; is_latched := false;
     is_inhibited := false; message := ""; ecam_code := 0 |}.

#[global] Instance parameter_inhabited : Inhabited ehms_parameter_t :=
  populate parameter_zero.
#[global] Instance snapshot_inhabited : Inhabited ehms_engine_snapshot_t :=
  populate snapshot_zero.
#[global] Instance alert_inhabited : Inhabited ehms_alert_t :=
  populate alert_zero.

(** [snprintf(buf, size, fmt, n)] for a format with one [%d] directive:
    the directive is replaced by the decimal numeral, and the output is cut
    to [size - 1] characters. *)
Fixpoint format_d (fmt : string) (n : Z) : string :=
  match fmt with
  | EmptyString => EmptyString
  | String c rest =>
      match rest with
      | String d rest' =>
          if (Ascii.eqb c "%" && Ascii.eqb d "d")%bool
          then pretty n +:+ rest'
          else String c (format_d rest n)
      | EmptyString => String c EmptyString
      end
  end.

Definition snprintf_d (size : nat) (fmt : string) (n : Z) : string :=
  substring 0 (size - 1) (format_d fmt n).

(* ===================================================================== *)
(** * alert_manager.c                                                     *)
(* ===================================================================== *)

Module AlertManager.

Definition ALERT_MAX_QUEUE_SIZE : Z := 64.
Definition ALERT_DEBOUNCE_CYCLES : Z := 3.

Record alert_state_t := {
  alerts : list ehms_alert_t;              (* [EHMS_MAX_ACTIVE_ALERTS] *)
  active_count : Z;
  next_alert_id : Z;
  master_caution : bool;
  master_warning : bool;
  highest_level : ehms_alert_level_t
}.

Record alert_threshold_t := {
  thr_param_id : Z;
  thr_level : ehms_alert_level_t;
  threshold : spec_float;
  high_limit : bool;
  thr_ecam_code : Z;
  thr_message : string
}.

Definition mk_threshold p l (t : Z) (hi : bool) (code : Z) (msg : string) :=
  {| thr_param_id := p; thr_level := l; threshold := f32_of_Z t;
     high_limit := hi; thr_ecam_code := code; thr_message := msg |}.

Definition s_thresholds : list alert_threshold_t := [
  mk_threshold EHMS_PARAM_EGT EHMS_ALERT_CAUTION 950 true 0x1001 "ENG %d EGT HIGH";
  mk_threshold EHMS_PARAM_EGT EHMS_ALERT_WARNING 1000 true 0x1002 "ENG %d EGT OVERLIMIT";
  mk_threshold EHMS_PARAM_OIL_PRESS EHMS_ALERT_CAUTION 25 false 0x2001 "ENG %d OIL PRESS LO";
  mk_threshold EHMS_PARAM_OIL_PRESS EHMS_ALERT_WARNING 15 false 0x2002 "ENG %d OIL PRESS CRIT";
  mk_threshold EHMS_PARAM_OIL_TEMP EHMS_ALERT_CAUTION 140 true 0x2003 "ENG %d OIL TEMP HI";
  mk_threshold EHMS_PARAM_OIL_TEMP EHMS_ALERT_WARNING 155 true 0x2004 "ENG %d OIL TEMP CRIT";
  mk_threshold EHMS_PARAM_VIB_FAN EHMS_ALERT_CAUTION 3 true 0x3001 "ENG %d FAN VIB HI";
  mk_threshold EHMS_PARAM_VIB_FAN EHMS_ALERT_WARNING 5 true 0x3002 "ENG %d FAN VIB CRIT";
  mk_threshold EHMS_PARAM_VIB_CORE EHMS_ALERT_CAUTION 4 true 0x3003 "ENG %d CORE VIB HI";
  mk_threshold EHMS_PARAM_VIB_CORE EHMS_ALERT_WARNING 6 true 0x3004 "ENG %d CORE VIB CRIT";
  mk_threshold EHMS_PARAM_N1 EHMS_ALERT_WARNING 104 true 0x4001 "ENG %d N1 OVERLIMIT";
  mk_threshold EHMS_PARAM_N2 EHMS_ALERT_WARNING 105 true 0x4002 "ENG %d N2 OVERLIMIT"
].

(** The two outbound ports; each call is recorded in order. *)
Inductive port_event :=
  | eicas_post_message (a : ehms_alert_t)
  | recorder_log_alert (a : ehms_alert_t).

Definition alert_init : ehms_result_t * alert_state_t :=
  (EHMS_OK,
   {| alerts := replicate (Z.to_nat EHMS_MAX_ACTIVE_ALERTS) alert_zero;
      active_count := 0;
      next_alert_id := 1;
      master_caution := false;
      master_warning := false;
      highest_level := EHMS_ALERT_NONE |}).

(** The slots [alerts[0 .. active_count)] scanned by the inner loop. *)
Definition active_alerts (s : alert_state_t) : list ehms_alert_t :=
  take (Z.to_nat (active_count s)) (alerts s).

Definition exceeded (thresh : alert_threshold_t) (param : ehms_parameter_t)
  : bool :=
  if high_limit thresh
  then f32_ge (eng_value param) (threshold thresh)
  else f32_le (eng_value param) (threshold thresh).

Definition alert_matches (thresh : alert_threshold_t)
    (snapshot : ehms_engine_snapshot_t) (a : ehms_alert_t) : bool :=
  (alert_param_id a =? thr_param_id thresh)
  && (alert_engine_id a =? engine_id snapshot)
  && (alert_level_val (level a) =? alert_level_val (thr_level thresh)).

Definition already_active (s : alert_state_t) (thresh : alert_threshold_t)
    (snapshot : ehms_engine_snapshot_t) : bool :=
  existsb (alert_matches thresh snapshot) (active_alerts s).

(** The stores into [*new_alert]; [slot] is the previous content of
    [alerts[active_count]], whose [clear_time] and [is_inhibited] are not
    written. *)
Definition new_alert (s : alert_state_t) (thresh : alert_threshold_t)
    (snapshot : ehms_engine_snapshot_t) (slot : ehms_alert_t) : ehms_alert_t :=
  {| alert_id := next_alert_id s;
     level := thr_level thresh;
     alert_engine_id := engine_id snapshot;
     alert_param_id := thr_param_id thresh;
     onset_time := sample_time snapshot;
     clear_time := clear_time slot;
     is_active := true;
     is_latched :=
       alert_level_val (thr_level thresh) >=? alert_level_val EHMS_ALERT_WARNING;
     is_inhibited := is_inhibited slot;
     message :=
       snprintf_d 64 (thr_message thresh) (to_int32 (engine_id snapshot) + 1);
     ecam_code := thr_ecam_code thresh |}.

(** The body of the "create new alert" branch: the slot
    [alerts[active_count]] is filled, the counters are incremented and the
    master indicators and [highest_level] are updated. *)
Definition raise_alert (s : alert_state_t) (thresh : alert_threshold_t)
    (snapshot : ehms_engine_snapshot_t) : alert_state_t :=
  let idx := Z.to_nat (active_count s) in
  let a := new_alert s thresh snapshot (alerts s !!! idx) in
  let is_warning :=
    alert_level_val (thr_level thresh) >=? alert_level_val EHMS_ALERT_WARNING in
  let is_caution :=
    alert_level_val (thr_level thresh) >=? alert_level_val EHMS_ALERT_CAUTION in
  {| alerts := <[idx := a]> (alerts s);
     active_count := wrap32 (active_count s + 1);
     next_alert_id := wrap32 (next_alert_id s + 1);
     master_caution :=
       if is_warning then master_caution s
       else if is_caution then true else master_caution s;
     master_warning := if is_warning then true else master_warning s;
     highest_level :=
       if alert_level_val (thr_level thresh) >? alert_level_val (highest_level s)
       then thr_level thresh else highest_level s |}.

(** One iteration of the loop over [s_thresholds]; [out] collects the
    calls made on the two ports. *)
Definition process_threshold (snapshot : ehms_engine_snapshot_t)
    (acc : alert_state_t * list port_event) (thresh : alert_threshold_t)
  : alert_state_t * list port_event :=
  let '(s, out) := acc in
  let param := parameters snapshot !!! Z.to_nat (thr_param_id thresh) in
  match status param with
  | EHMS_PARAM_VALID =>
      if exceeded thresh param then
        if negb (already_active s thresh snapshot)
           && (active_count s <? EHMS_MAX_ACTIVE_ALERTS)
        then
          let a := new_alert s thresh snapshot
                     (alerts s !!! Z.to_nat (active_count s)) in
          (raise_alert s thresh snapshot,
           out ++ [eicas_post_message a; recorder_log_alert a])
        else acc
      else acc
  | _ => acc   (* continue *)
  end.

(** [snapshot = None] is the NULL pointer. *)
Definition alert_process_snapshot (s : alert_state_t)
    (snapshot : option ehms_engine_snapshot_t)
  : ehms_result_t * alert_state_t * list port_event :=
  match snapshot with
  | None => (EHMS_ERROR_PARAM, s, [])
  | Some snap =>
      let '(s', out) := fold_left (process_threshold snap) s_thresholds (s, [])
      in (EHMS_OK, s', out)
  end.

Definition alert_get_active_count (s : alert_state_t) : Z := active_count s.
Definition alert_get_highest_level (s : alert_state_t) : ehms_alert_level_t :=
  highest_level s.
Definition alert_is_master_warning (s : alert_state_t) : bool :=
  master_warning s.
Definition alert_is_master_caution (s : alert_state_t) : bool :=
  master_caution s.

Definition alert_acknowledge (s : alert_state_t) (lvl : ehms_alert_level_t)
  : ehms_result_t * alert_state_t :=
  (EHMS_OK,
   if alert_level_val lvl >=? alert_level_val EHMS_ALERT_WARNING then
     {| alerts := alerts s; active_count := active_count s;
        next_alert_id := next_alert_id s;
        master_caution := master_caution s;
        master_warning := false;
        highest_level := highest_level s |}
   else if alert_level_val lvl >=? alert_level_val EHMS_ALERT_CAUTION then
     {| alerts := alerts s; active_count := active_count s;
        next_alert_id := next_alert_id s;
        master_caution := false;
        master_warning := master_warning s;
        highest_level := highest_level s |}
   else s).

(** ** Sequences of calls on the alert manager *)

Inductive alert_call :=
  | call_process (snapshot : option ehms_engine_snapshot_t)
  | call_acknowledge (lvl : ehms_alert_level_t).

Definition alert_step (s : alert_state_t) (c : alert_call) : alert_state_t :=
  match c with
  | call_process snapshot => (alert_process_snapshot s snapshot).1.2
  | call_acknowledge lvl => (alert_acknowledge s lvl).2
  end.

Definition alert_run (s : alert_state_t) (cs : list alert_call)
  : alert_state_t := fold_left alert_step cs s.

(** The identity of an alert: [(engine_id, param_id, level)]. *)
Definition alert_key (a : ehms_alert_t) : Z * Z * Z :=
  (alert_engine_id a, alert_param_id a, alert_level_val (level a)).

Definition threshold_key (snapshot : ehms_engine_snapshot_t)
    (thresh : alert_threshold_t) : Z * Z * Z :=
  (engine_id snapshot, thr_param_id thresh, alert_level_val (thr_level thresh)).

(** The shape of the C object: 32 slots and a count within them. *)
Definition alert_state_wf (s : alert_state_t) : Prop :=
  length (alerts s) = Z.to_nat EHMS_MAX_ACTIVE_ALERTS
  /\ 0 <= active_count s <= EHMS_MAX_ACTIVE_ALERTS.

(** The parameter a threshold row looks at. *)
Definition threshold_param (snapshot : ehms_engine_snapshot_t)
    (thresh : alert_threshold_t) : ehms_parameter_t :=
  parameters snapshot !!! Z.to_nat (thr_param_id thresh).

(** Snapshots used in examples: parameter [p] overwritten in [snap]. *)
Definition with_param (snap : ehms_engine_snapshot_t) (p : Z)
    (st : ehms_param_status_t) (v : spec_float) : ehms_engine_snapshot_t :=
  {| engine_id := engine_id snap; sample_time := sample_time snap;
     flight_phase := flight_phase snap;
     parameters :=
       <[Z.to_nat p :=
           {| param_id := p; status := st; raw_value := 0; eng_value := v;
              timestamp := sample_time snap; source_bus := 0 |}]>
         (parameters snap);
     health_status := health_status snap; crc32 := crc32 snap |}.

(** A snapshot of engine [eng] in which no threshold is met. *)
Definition nominal_snapshot (eng : Z) : ehms_engine_snapshot_t :=
  with_param
    {| engine_id := eng; sample_time := timestamp_zero; flight_phase := 0;
       parameters := replicate (Z.to_nat EHMS_PARAM_COUNT) parameter_zero;
       health_status := EHMS_HEALTH_NORMAL; crc32 := 0 |}
    EHMS_PARAM_OIL_PRESS EHMS_PARAM_VALID (f32_of_Z 50).

(** A snapshot of engine [eng] in which all twelve thresholds are met. *)
Definition overlimit_snapshot (eng : Z) : ehms_engine_snapshot_t :=
  let v p x s := with_param s p EHMS_PARAM_VALID (f32_of_Z x) in
  v EHMS_PARAM_N1 110 (v EHMS_PARAM_N2 110 (v EHMS_PARAM_EGT 1100
   (v EHMS_PARAM_OIL_TEMP 160 (v EHMS_PARAM_OIL_PRESS 10
     (v EHMS_PARAM_VIB_FAN 7 (v EHMS_PARAM_VIB_CORE 7
        (nominal_snapshot eng))))))).

(** Parameter [p] of [snap] with another cached engineering value. *)
Definition set_eng_value (snap : ehms_engine_snapshot_t) (p : Z)
    (v : spec_float) : ehms_engine_snapshot_t :=
  {| engine_id := engine_id snap; sample_time := sample_time snap;
     flight_phase := flight_phase snap;
     parameters :=
       alter (fun x =>
                {| param_id := param_id x; status := status x;
                   raw_value := raw_value x; eng_value := v;
                   timestamp := timestamp x; source_bus := source_bus x |})
             (Z.to_nat p) (parameters snap);
     health_status := health_status snap; crc32 := crc32 snap |}.

(** What every alert created while processing [snap] satisfies. *)
Definition raised_by (snap : ehms_engine_snapshot_t) (a : ehms_alert_t)
  : Prop :=
  alert_engine_id a = engine_id snap
  /\ onset_time a = sample_time snap
  /\ is_active a = true
  /\ status (parameters snap !!! Z.to_nat (alert_param_id a)) = EHMS_PARAM_VALID.

(** [s'] is [s] with alerts appended, all of them raised by [snap]. *)
Definition grows (snap : ehms_engine_snapshot_t) (s s' : alert_state_t)
  : Prop :=
  alert_state_wf s'
  /\ active_count s <= active_count s'
  /\ (forall i : nat,
        Z.of_nat i < active_count s -> alerts s' !! i = alerts s !! i)
  /\ (forall (i : nat) (a : ehms_alert_t),
        active_count s <= Z.of_nat i < active_count s' ->
        alerts s' !! i = Some a -> raised_by snap a).

(** Existing slots are kept, whatever the shape of the state. *)
Definition keeps_alerts (s s' : alert_state_t) : Prop :=
  active_count s <= active_count s'
  /\ (forall i : nat,
        Z.of_nat i < active_count s -> alerts s' !! i = alerts s !! i).

(** I-3: at most one active alert per [(engine_id, param_id, level)]. *)
Definition alert_unique (s : alert_state_t) : Prop :=
  NoDup (alert_key <$> active_alerts s).

(** ** Concrete inputs used in the examples *)

(** The first row of [s_thresholds]: EGT caution at 950. *)
Definition egt_caution_row : alert_threshold_t :=
  mk_threshold EHMS_PARAM_EGT EHMS_ALERT_CAUTION 950 true 0x1001
    "ENG %d EGT HIGH".

(** Engine [eng] with a Valid EGT reading of [egt] degrees. *)
Definition egt_snapshot (eng egt : Z) : ehms_engine_snapshot_t :=
  with_param (nominal_snapshot eng) EHMS_PARAM_EGT EHMS_PARAM_VALID
    (f32_of_Z egt).

(** Engine [eng] with a Stale EGT sample whose cached value is [egt]. *)
Definition stale_egt_snapshot (eng egt : Z) : ehms_engine_snapshot_t :=
  with_param (nominal_snapshot eng) EHMS_PARAM_EGT EHMS_PARAM_STALE
    (f32_of_Z egt).

(** The state after [alert_init]. *)
Definition initial_state : alert_state_t := alert_init.2.

(** One EGT caution alert on engine 2 (id 1): the state after the first
    call with an EGT of 950. *)
Definition caution_state : alert_state_t :=
  alert_run initial_state [call_process (Some (egt_snapshot 1 950))].

(** The alert held in slot 0 of [caution_state]. *)
Definition caution_alert : ehms_alert_t :=
  {| alert_id := 1; level := EHMS_ALERT_CAUTION; alert_engine_id := 1;
     alert_param_id := EHMS_PARAM_EGT; onset_time := timestamp_zero;
     clear_time := timestamp_zero; is_active := true; is_latched := false;
     is_inhibited := false; message := "ENG 2 EGT HIGH";
     ecam_code := 0x1001 |}.

(** A saturated active set: three engines with every threshold met. *)
Definition full_state : alert_state_t :=
  alert_run initial_state
    [call_process (Some (overlimit_snapshot 0));
     call_process (Some (overlimit_snapshot 1));
     call_process (Some (overlimit_snapshot 2))].

End AlertManager.

(* ===================================================================== *)
(** * data_acquisition.c                                                  *)
(* ===================================================================== *)

Module DataAcquisition.

Definition DAQ_STALE_TIMEOUT_MS : Z := 100.
Definition DAQ_MAX_CONSECUTIVE_FAILURES : Z := 5.
Definition DAQ_CYCLE_PERIOD_US : Z := 10000.
Definition DAQ_CRC32_POLYNOMIAL : Z := 0xEDB88320.

Record daq_source_info_t := {
  src_is_active : bool;
  is_primary : bool;
  bus_id : Z;
  last_update_ms : Z;
  failure_count : Z;
  total_samples : Z;
  error_samples : Z
}.

Record daq_module_state_t := {
  is_initialized : bool;
  state : ehms_system_state_t;
  cycle_count : Z;
  current_time_ms : Z;
  sources : list daq_source_info_t;            (* [EHMS_ARINC429_BUS_COUNT] *)
  engine_data : list ehms_engine_snapshot_t;   (* [EHMS_MAX_ENGINES] *)
  last_error : ehms_result_t
}.

Definition source_zero : daq_source_info_t :=
  {| src_is_active := false; is_primary := false; bus_id := 0;
     last_update_ms := 0; failure_count := 0; total_samples := 0;
     error_samples := 0 |}.

#[global] Instance source_inhabited : Inhabited daq_source_info_t :=
  populate source_zero.

(** The module state after [memset(&s_daq_state, 0, sizeof(s_daq_state))]. *)
Definition daq_state_zero : daq_module_state_t :=
  {| is_initialized := false; state := EHMS_STATE_OFF; cycle_count := 0;
     current_time_ms := 0;
     sources := replicate (Z.to_nat EHMS_ARINC429_BUS_COUNT) source_zero;
     engine_data := replicate (Z.to_nat EHMS_MAX_ENGINES) snapshot_zero;
     last_error := EHMS_OK |}.

(** ** Types declared in headers that are not part of the sources *)

(** Modelled from the spec: [daq_param_config_t] (data_acquisition.h is
    missing); the fields are the columns named in the table's comment and
    read by the code. *)
Record daq_param_config_t := {
  cfg_param_id : Z;
  arinc_label : Z;
  bus_primary : Z;
  bus_backup : Z;
  scale_factor : spec_float;
  offset : spec_float
}.

(** Modelled from the spec: the per-bus configuration [{speed, parity}]
    (arinc429_driver.h is missing). *)
Record arinc429_config_t := { speed : Z; parity : Z }.

(** Modelled from the spec: [daq_config_t] (data_acquisition.h is missing);
    the fields are those [daq_init] and the unit test use. *)
Record daq_config_t := {
  sample_rate_hz : Z;
  engine_count : Z;
  arinc_config : list arinc429_config_t        (* [EHMS_ARINC429_BUS_COUNT] *)
}.

(** Modelled from the spec: [daq_statistics_t] (data_acquisition.h is
    missing); the fields are those [daq_get_statistics] writes. *)
Record daq_statistics_t := {
  stat_cycle_count : Z;
  stat_current_time_ms : Z;
  source_samples : list Z;
  source_errors : list Z
}.

(** Modelled from the spec: the labelled word [{label, data: u32, ssm}] of
    the serial bus (arinc429_driver.h is missing). *)
Record arinc429_word_t := { label : Z; data : Z; ssm : Z }.

(** Modelled from the spec: the multiplex-bus message [{data: [u16; 32]}]
    (milstd1553_driver.h is missing). *)
Record milstd1553_message_t := { msg_data : list Z }.

(** Modelled from the spec: the limits [{min_value, max_value}] in
    engineering units (parameter_database.h is missing). *)
Record param_limits_t := { min_value : spec_float; max_value : spec_float }.

#[global] Instance arinc429_config_inhabited : Inhabited arinc429_config_t :=
  populate {| speed := 0; parity := 0 |}.

(** Modelled from the spec: the codes passed to [error_report]
    (error_handler.h is missing), kept as tags. *)
Inductive error_code := ERR_CODE_INIT_FAILED | ERR_CODE_CRC_MISMATCH.

(** ** The parameter configuration table *)

Definition mk_config (p lbl prim back : Z) (scale off : spec_float)
  : daq_param_config_t :=
  {| cfg_param_id := p; arinc_label := lbl; bus_primary := prim;
     bus_backup := back; scale_factor := scale; offset := off |}.

(** The float literals of the table: [0.1f], [0.5f], [0.001f] are the
    binary32 numbers nearest to the decimal, which is what the correctly
    rounded quotient gives. *)
Definition f32_0_1 : spec_float := f32_div (f32_of_Z 1) (f32_of_Z 10).
Definition f32_0_5 : spec_float := f32_div (f32_of_Z 1) (f32_of_Z 2).
Definition f32_0_001 : spec_float := f32_div (f32_of_Z 1) (f32_of_Z 1000).
Definition f32_zero : spec_float := S754_zero false.

(** A row without initialiser is zero-initialised by C. *)
Definition config_zero : daq_param_config_t :=
  mk_config 0 0 0 0 f32_zero f32_zero.

#[global] Instance config_inhabited : Inhabited daq_param_config_t :=
  populate config_zero.

(** Ten rows are written out; the other 38 entries of the
    [EHMS_PARAM_COUNT]-element array have no initialiser.  The labels are
    the octal numbers 310 .. 321. *)
Definition s_param_config : list daq_param_config_t :=
  [ mk_config EHMS_PARAM_N1        200 0 1 f32_0_1   f32_zero;
    mk_config EHMS_PARAM_N2        201 0 1 f32_0_1   f32_zero;
    mk_config EHMS_PARAM_EGT       202 0 1 (f32_of_Z 1) f32_zero;
    mk_config EHMS_PARAM_FF        203 0 1 f32_0_1   f32_zero;
    mk_config EHMS_PARAM_OIL_TEMP  204 0 1 f32_0_5   (f32_of_Z (-40));
    mk_config EHMS_PARAM_OIL_PRESS 205 0 1 f32_0_1   f32_zero;
    mk_config EHMS_PARAM_OIL_QTY   206 0 1 f32_0_5   f32_zero;
    mk_config EHMS_PARAM_VIB_FAN   207 2 3 f32_0_001 f32_zero;
    mk_config EHMS_PARAM_VIB_CORE  208 2 3 f32_0_001 f32_zero;
    mk_config EHMS_PARAM_EPR       209 0 1 f32_0_001 f32_zero ]
  ++ replicate 38 config_zero.

(** ** CRC-32 *)

(** One turn of the inner loop over the 8 bits. *)
Definition crc32_bit (crc : Z) : Z :=
  if Z.testbit crc 0
  then Z.lxor (Z.shiftr crc 1) DAQ_CRC32_POLYNOMIAL
  else Z.shiftr crc 1.

(** One turn of the outer loop: [crc ^= bytes[i]], then 8 bit steps. *)
Definition crc32_byte (crc byte : Z) : Z :=
  Nat.iter 8 crc32_bit (Z.lxor crc byte).

(** [data] is the memory the pointer designates; the first [length] bytes
    of it are summed.  [~crc] on 32 bits is the exclusive or with
    0xFFFFFFFF. *)
Definition daq_calculate_crc32 (data : list Z) (length : Z) : Z :=
  Z.lxor (fold_left crc32_byte (take (Z.to_nat length) data) 0xFFFFFFFF)
         0xFFFFFFFF.

(** ** Memory image of a snapshot

    The image follows the usual C layout: enumerations and [float] take 4
    bytes, integers are little-endian, members are aligned to their size,
    and padding bytes are zero (the module state is cleared by [memset]). *)

Fixpoint le_bytes (n : nat) (z : Z) : list Z :=
  match n with
  | O => []
  | S n' => Z.land z 0xFF :: le_bytes n' (Z.shiftr z 8)
  end.

(** The binary32 encoding of a float. *)
Definition f32_bits (x : spec_float) : Z :=
  let sign (s : bool) : Z := if s then Z.shiftl 1 31 else 0 in
  match x with
  | S754_zero s => sign s
  | S754_infinity s => Z.lor (sign s) 0x7F800000
  | S754_nan => 0x7FC00000
  | S754_finite s m e =>
      if Z.pos m <? 2 ^ 23
      then Z.lor (sign s) (Z.pos m)
      else Z.lor (sign s)
             (Z.lor (Z.shiftl (e + 150) 23) (Z.pos m - 2 ^ 23))
  end.

Definition timestamp_bytes (t : ehms_timestamp_t) : list Z :=
  le_bytes 2 (year t) ++ le_bytes 1 (month t) ++ le_bytes 1 (day t)
  ++ le_bytes 1 (hour t) ++ le_bytes 1 (minute t) ++ le_bytes 1 (second t)
  ++ [0] ++ le_bytes 2 (millisecond t).

Definition parameter_bytes (p : ehms_parameter_t) : list Z :=
  le_bytes 4 (param_id p) ++ le_bytes 4 (param_status_val (status p))
  ++ le_bytes 4 (raw_value p) ++ le_bytes 4 (f32_bits (eng_value p))
  ++ timestamp_bytes (timestamp p) ++ le_bytes 1 (source_bus p) ++ [0].

Definition snapshot_bytes (s : ehms_engine_snapshot_t) : list Z :=
  le_bytes 4 (engine_id s) ++ timestamp_bytes (sample_time s) ++ [0; 0]
  ++ le_bytes 4 (flight_phase s)
  ++ concat (parameter_bytes <$> parameters s)
  ++ le_bytes 4 (health_status_val (health_status s))
  ++ le_bytes 4 (crc32 s).

(** [sizeof(ehms_engine_snapshot_t)] and [sizeof(uint32_t)]. *)
Definition sizeof_snapshot : Z := 4 + 12 + 4 + EHMS_PARAM_COUNT * 28 + 4 + 4.
Definition sizeof_uint32 : Z := 4.

(** ** Source statistics *)

(** The stores of [daq_update_statistics] into [sources[bus_id]]; [now] is
    [s_daq_state.current_time_ms]. *)
Definition update_source (now : Z) (success : bool) (src : daq_source_info_t)
  : daq_source_info_t :=
  if negb success then
    {| src_is_active :=
         if wrap32 (failure_count src + 1) >=? DAQ_MAX_CONSECUTIVE_FAILURES
         then false else src_is_active src;
       is_primary := is_primary src;
       bus_id := bus_id src;
       last_update_ms := now;
       failure_count := wrap32 (failure_count src + 1);
       total_samples := wrap32 (total_samples src + 1);
       error_samples := wrap32 (error_samples src + 1) |}
  else
    {| src_is_active := src_is_active src;
       is_primary := is_primary src;
       bus_id := bus_id src;
       last_update_ms := now;
       failure_count := 0;
       total_samples := wrap32 (total_samples src + 1);
       error_samples := error_samples src |}.

Definition set_sources (d : daq_module_state_t)
    (srcs : list daq_source_info_t) : daq_module_state_t :=
  {| is_initialized := is_initialized d; state := state d;
     cycle_count := cycle_count d; current_time_ms := current_time_ms d;
     sources := srcs; engine_data := engine_data d;
     last_error := last_error d |}.

Definition set_engine_data (d : daq_module_state_t)
    (engs : list ehms_engine_snapshot_t) : daq_module_state_t :=
  {| is_initialized := is_initialized d; state := state d;
     cycle_count := cycle_count d; current_time_ms := current_time_ms d;
     sources := sources d; engine_data := engs;
     last_error := last_error d |}.

(** [bus_id] is a [uint8_t]. *)
Definition daq_update_statistics (bus_id : Z) (success : bool)
    (d : daq_module_state_t) : daq_module_state_t :=
  if bus_id <? EHMS_ARINC429_BUS_COUNT then
    set_sources d
      (alter (update_source (current_time_ms d) success) (Z.to_nat bus_id)
             (sources d))
  else d.

Definition daq_init_sources (d : daq_module_state_t) : daq_module_state_t :=
  set_sources d
    ((fun i : Z =>
        {| src_is_active := true; is_primary := i <? 2; bus_id := i;
           last_update_ms := 0; failure_count := 0; total_samples := 0;
           error_samples := 0 |})
       <$> [0; 1; 2; 3]).

Definition daq_validate_config (config : daq_config_t) : ehms_result_t :=
  if sample_rate_hz config >? EHMS_MAX_SAMPLE_RATE_HZ then EHMS_ERROR_RANGE
  else if engine_count config >? EHMS_MAX_ENGINES then EHMS_ERROR_RANGE
  else EHMS_OK.

(** ** The external collaborators

    The bus drivers, the clock, the configuration, the parameter database
    and the error reporter are not part of the module.  They are a record
    of operations on a world [W] that the module never inspects; every call
    takes the world and returns the next one. *)

Record drivers (W : Type) := {
  system_get_time_ms : W -> Z * W;
  system_get_timestamp : W -> ehms_timestamp_t * W;
  timestamp_to_ms : ehms_timestamp_t -> Z;
  config_get_engine_count : W -> Z * W;
  arinc429_init : Z -> arinc429_config_t -> W -> ehms_result_t * W;
  arinc429_read : Z -> Z -> W -> (ehms_result_t * arinc429_word_t) * W;
  milstd1553_init : Z -> W -> ehms_result_t * W;
  milstd1553_read_subaddress :
    Z -> W -> (ehms_result_t * milstd1553_message_t) * W;
  param_db_get_limits : Z -> W -> (ehms_result_t * param_limits_t) * W;
  error_report : error_code -> Z -> W -> W
}.

Arguments system_get_time_ms {W} _ _.
Arguments system_get_timestamp {W} _ _.
Arguments timestamp_to_ms {W} _ _.
Arguments config_get_engine_count {W} _ _.
Arguments arinc429_init {W} _ _ _ _.
Arguments arinc429_read {W} _ _ _ _.
Arguments milstd1553_init {W} _ _ _.
Arguments milstd1553_read_subaddress {W} _ _ _.
Arguments param_db_get_limits {W} _ _ _.
Arguments error_report {W} _ _ _ _.

Section Pipeline.
Context {W : Type} (drv : drivers W).

(** The machine: the world of the collaborators and [s_daq_state]. *)
Definition machine : Type := W * daq_module_state_t.

(** Computations on the machine. *)
Definition M (A : Type) : Type := machine -> A * machine.

Definition ret {A} (a : A) : M A := fun m => (a, m).

Definition bind {A B} (c : M A) (k : A -> M B) : M B :=
  fun m => let '(a, m') := c m in k a m'.

Notation "'let*' x := c 'in' k" := (bind c (fun x => k))
  (at level 10, x pattern, c at level 100, k at level 200).
Notation "c ;;; k" := (bind c (fun _ => k))
  (at level 190, k at level 200, right associativity).

(** A call of a collaborator. *)
Definition ext {A} (f : W -> A * W) : M A :=
  fun '(w, d) => let '(a, w') := f w in (a, (w', d)).

Definition ext_ (f : W -> W) : M unit := fun '(w, d) => (tt, (f w, d)).

Definition get_state : M daq_module_state_t := fun '(w, d) => (d, (w, d)).

Definition modify_state (f : daq_module_state_t -> daq_module_state_t)
  : M unit := fun '(w, d) => (tt, (w, f d)).

(** A [for] loop over the values of [l] that carries one local variable. *)
Fixpoint for_each {A B} (l : list A) (body : A -> B -> M B) (acc : B) : M B :=
  match l with
  | [] => ret acc
  | x :: rest => let* acc' := body x acc in for_each rest body acc'
  end.

(** [engine_data[engine].parameters[p]]: read, and store. *)
Definition get_param (engine p : Z) (d : daq_module_state_t)
  : ehms_parameter_t :=
  parameters (engine_data d !!! Z.to_nat engine) !!! Z.to_nat p.

Definition set_parameters (s : ehms_engine_snapshot_t)
    (ps : list ehms_parameter_t) : ehms_engine_snapshot_t :=
  {| engine_id := engine_id s; sample_time := sample_time s;
     flight_phase := flight_phase s; parameters := ps;
     health_status := health_status s; crc32 := crc32 s |}.

Definition set_param (engine p : Z) (x : ehms_parameter_t)
    (d : daq_module_state_t) : daq_module_state_t :=
  set_engine_data d
    (alter (fun s => set_parameters s (<[Z.to_nat p := x]> (parameters s)))
           (Z.to_nat engine) (engine_data d)).

Definition param_indices : list Z := Z.of_nat <$> seq 0 (Z.to_nat EHMS_PARAM_COUNT).

(** [(float)word.data * scale_factor + offset], [word.data] being a
    [uint32_t]. *)
Definition scale_to_eng (raw : Z) (c : daq_param_config_t) : spec_float :=
  f32_add (f32_mul (f32_of_Z raw) (scale_factor c)) (offset c).

Definition daq_read_arinc429_data (bus_id engine : Z) : M ehms_result_t :=
  for_each param_indices
    (fun p result =>
       let c := s_param_config !!! Z.to_nat p in
       if bus_primary c =? bus_id then
         let* (result', word) := ext (arinc429_read drv bus_id (arinc_label c)) in
         match result' with
         | EHMS_OK =>
             let* ts := ext (system_get_timestamp drv) in
             modify_state (fun d =>
               set_param engine p
                 {| param_id := p;
                    status := EHMS_PARAM_VALID;
                    raw_value := to_int32 (data word);
                    eng_value := scale_to_eng (data word) c;
                    timestamp := ts;
                    source_bus := bus_id |} d) ;;;
             modify_state (daq_update_statistics bus_id true) ;;;
             ret result'
         | _ =>
             modify_state (daq_update_statistics bus_id false) ;;;
             ret result'
         end
       else ret result)
    EHMS_OK.

Definition daq_read_1553_data (engine : Z) : M ehms_result_t :=
  let* (result, msg) := ext (milstd1553_read_subaddress drv 5) in
  match result with
  | EHMS_OK =>
      modify_state (fun d =>
        let vib_fan := get_param engine EHMS_PARAM_VIB_FAN d in
        let w0 := msg_data msg !!! 0%nat in
        set_param engine EHMS_PARAM_VIB_FAN
          {| param_id := param_id vib_fan;
             status := EHMS_PARAM_VALID;
             raw_value := w0;
             eng_value := f32_mul (f32_of_Z w0) f32_0_001;
             timestamp := timestamp vib_fan;
             source_bus := source_bus vib_fan |} d) ;;;
      modify_state (fun d =>
        let vib_core := get_param engine EHMS_PARAM_VIB_CORE d in
        let w1 := msg_data msg !!! 1%nat in
        set_param engine EHMS_PARAM_VIB_CORE
          {| param_id := param_id vib_core;
             status := EHMS_PARAM_VALID;
             raw_value := w1;
             eng_value := f32_mul (f32_of_Z w1) f32_0_001;
             timestamp := timestamp vib_core;
             source_bus := source_bus vib_core |} d) ;;;
      ret result
  | _ => ret result
  end.

Definition set_status (x : ehms_parameter_t) (st : ehms_param_status_t)
  : ehms_parameter_t :=
  {| param_id := param_id x; status := st; raw_value := raw_value x;
     eng_value := eng_value x; timestamp := timestamp x;
     source_bus := source_bus x |}.

(** [param] is [&engine_data[engine].parameters[p]]. *)
Definition daq_validate_parameter (engine p : Z) : M ehms_result_t :=
  let* d := get_state in
  let param := get_param engine p d in
  let* (r, limits) := ext (param_db_get_limits drv (param_id param)) in
  match r with
  | EHMS_OK =>
      if f32_lt (eng_value param) (min_value limits)
         || f32_gt (eng_value param) (max_value limits)
      then
        modify_state (set_param engine p (set_status param EHMS_PARAM_FAILED)) ;;;
        ret EHMS_ERROR_RANGE
      else ret EHMS_OK
  | _ => ret EHMS_OK
  end.

Definition daq_check_staleness (engine p : Z) : M ehms_result_t :=
  let* d := get_state in
  let param := get_param engine p d in
  let param_age_ms :=
    wrap32 (current_time_ms d - timestamp_to_ms drv (timestamp param)) in
  if param_age_ms >? DAQ_STALE_TIMEOUT_MS then
    match status param with
    | EHMS_PARAM_VALID =>
        modify_state (set_param engine p (set_status param EHMS_PARAM_STALE))
    | _ => ret tt
    end ;;;
    ret EHMS_ERROR_TIMEOUT
  else ret EHMS_OK.

Definition set_crc32 (s : ehms_engine_snapshot_t) (c : Z)
  : ehms_engine_snapshot_t :=
  {| engine_id := engine_id s; sample_time := sample_time s;
     flight_phase := flight_phase s; parameters := parameters s;
     health_status := health_status s; crc32 := c |}.

Definition set_sample_time (s : ehms_engine_snapshot_t) (t : ehms_timestamp_t)
  : ehms_engine_snapshot_t :=
  {| engine_id := engine_id s; sample_time := t;
     flight_phase := flight_phase s; parameters := parameters s;
     health_status := health_status s; crc32 := crc32 s |}.

Definition modify_engine (engine : Z)
    (f : ehms_engine_snapshot_t -> ehms_engine_snapshot_t) : M unit :=
  modify_state (fun d =>
    set_engine_data d (alter f (Z.to_nat engine) (engine_data d))).

(** The body of the loop over the engines. *)
Definition acquire_engine (eng : Z) : M unit :=
  let* engine_result :=
    daq_read_arinc429_data (bus_primary (s_param_config !!! 0%nat)) eng in
  let* engine_result :=
    (match engine_result with
     | EHMS_OK => ret engine_result
     | _ => daq_read_arinc429_data (bus_backup (s_param_config !!! 0%nat)) eng
     end) in
  let* _ := (match engine_result with
        | EHMS_OK => daq_read_1553_data eng
        | _ => ret engine_result
        end) in
  for_each param_indices
    (fun p (_ : unit) =>
       daq_validate_parameter eng p ;;;
       daq_check_staleness eng p ;;;
       ret tt) tt ;;;
  modify_engine eng (fun s =>
    set_crc32 s
      (daq_calculate_crc32 (snapshot_bytes s) (sizeof_snapshot - sizeof_uint32))) ;;;
  let* ts := ext (system_get_timestamp drv) in
  modify_engine eng (fun s => set_sample_time s ts).

(** The loop [for (eng = EHMS_ENGINE_1; eng < config_get_engine_count();
    eng++)].  [engs] are the indices of [engine_data] not yet visited; a
    count above [EHMS_MAX_ENGINES], which [daq_validate_config] refuses,
    would make the C loop leave the array. *)
Fixpoint engine_loop (engs : list Z) : M unit :=
  match engs with
  | [] => ret tt
  | eng :: rest =>
      let* n := ext (config_get_engine_count drv) in
      if eng <? n then acquire_engine eng ;;; engine_loop rest else ret tt
  end.

Definition engine_indices : list Z := [0; 1; 2; 3].

Definition daq_execute_cycle : M ehms_result_t :=
  let* d := get_state in
  if negb (is_initialized d) then ret EHMS_ERROR_NOT_INIT
  else
    let* now := ext (system_get_time_ms drv) in
    modify_state (fun d =>
      {| is_initialized := is_initialized d; state := state d;
         cycle_count := wrap32 (cycle_count d + 1);
         current_time_ms := now;
         sources := sources d; engine_data := engine_data d;
         last_error := last_error d |}) ;;;
    engine_loop engine_indices ;;;
    ret EHMS_OK.

(** [snapshot] is the caller's buffer, [None] for a NULL pointer; the
    buffer after the call is returned with the result. *)
Definition daq_get_engine_snapshot (engine_id : Z)
    (snapshot : option ehms_engine_snapshot_t)
  : M (ehms_result_t * option ehms_engine_snapshot_t) :=
  match snapshot with
  | None => ret (EHMS_ERROR_PARAM, snapshot)
  | Some _ =>
      if engine_id >=? EHMS_ENGINE_COUNT then ret (EHMS_ERROR_RANGE, snapshot)
      else
        let* d := get_state in
        if negb (is_initialized d) then ret (EHMS_ERROR_NOT_INIT, snapshot)
        else
          let slot := engine_data d !!! Z.to_nat engine_id in
          let calc_crc :=
            daq_calculate_crc32 (snapshot_bytes slot)
              (sizeof_snapshot - sizeof_uint32) in
          if negb (calc_crc =? crc32 slot) then
            ext_ (error_report drv ERR_CODE_CRC_MISMATCH engine_id) ;;;
            ret (EHMS_ERROR_CRC, snapshot)
          else ret (EHMS_OK, Some slot)
  end.

Definition daq_get_parameter (engine_id param_id : Z)
    (param : option ehms_parameter_t)
  : M (ehms_result_t * option ehms_parameter_t) :=
  match param with
  | None => ret (EHMS_ERROR_PARAM, param)
  | Some _ =>
      if (engine_id >=? EHMS_ENGINE_COUNT) || (param_id >=? EHMS_PARAM_COUNT)
      then ret (EHMS_ERROR_RANGE, param)
      else
        let* d := get_state in
        if negb (is_initialized d) then ret (EHMS_ERROR_NOT_INIT, param)
        else ret (EHMS_OK, Some (get_param engine_id param_id d))
  end.

Definition daq_get_statistics (stats : option daq_statistics_t)
  : M (ehms_result_t * option daq_statistics_t) :=
  match stats with
  | None => ret (EHMS_ERROR_PARAM, stats)
  | Some _ =>
      let* d := get_state in
      ret (EHMS_OK,
           Some {| stat_cycle_count := cycle_count d;
                   stat_current_time_ms := current_time_ms d;
                   source_samples := total_samples <$> sources d;
                   source_errors := error_samples <$> sources d |})
  end.

(** The loop of [daq_init] over the buses, left at the first failure. *)
Fixpoint init_buses (config : daq_config_t) (buses : list Z)
  : M ehms_result_t :=
  match buses with
  | [] => ret EHMS_OK
  | bus :: rest =>
      let* result := ext (arinc429_init drv bus
                       (arinc_config config !!! Z.to_nat bus)) in
      match result with
      | EHMS_OK => init_buses config rest
      | _ =>
          ext_ (error_report drv ERR_CODE_INIT_FAILED bus) ;;;
          ret result
      end
  end.

Definition daq_init (config : option daq_config_t) : M ehms_result_t :=
  match config with
  | None => ret EHMS_ERROR_PARAM
  | Some c =>
      match daq_validate_config c with
      | EHMS_OK =>
          modify_state (fun _ => daq_init_sources daq_state_zero) ;;;
          let* result := init_buses c [0; 1; 2; 3] in
          match result with
          | EHMS_OK =>
              let* result := ext (milstd1553_init drv EHMS_1553_RT_ADDRESS) in
              match result with
              | EHMS_OK =>
                  modify_state (fun d =>
                    {| is_initialized := true; state := EHMS_STATE_INIT;
                       cycle_count := cycle_count d;
                       current_time_ms := current_time_ms d;
                       sources := sources d; engine_data := engine_data d;
                       last_error := last_error d |}) ;;;
                  ret result
              | _ => ret result
              end
          | _ => ret result
          end
      | err => ret err
      end
  end.

End Pipeline.

(** ** Concrete collaborators used in the examples

    The world is the log of the reads made on the serial buses.  Every read
    on a bus in [failing] returns [EHMS_ERROR_HARDWARE]; any other read
    returns the word [850].  The clock shows [now] milliseconds and the
    timestamp [ts]; two engines are configured; the parameter database has
    no limits; the multiplex bus returns a message of zeros. *)

Definition test_timestamp_to_ms (t : ehms_timestamp_t) : Z :=
  wrap32 (((hour t * 60 + minute t) * 60 + second t) * 1000 + millisecond t).

Definition test_drivers (failing : list Z) (now : Z) (ts : ehms_timestamp_t)
  : drivers (list (Z * Z)) :=
  {| system_get_time_ms := fun w => (now, w);
     system_get_timestamp := fun w => (ts, w);
     timestamp_to_ms := test_timestamp_to_ms;
     config_get_engine_count := fun w => (2, w);
     arinc429_init := fun _ _ w => (EHMS_OK, w);
     arinc429_read := fun bus lbl w =>
       (if existsb (Z.eqb bus) failing
        then (EHMS_ERROR_HARDWARE, {| label := 0; data := 0; ssm := 0 |})
        else (EHMS_OK, {| label := lbl; data := 850; ssm := 0 |}),
        w ++ [(bus, lbl)]);
     milstd1553_init := fun _ w => (EHMS_OK, w);
     milstd1553_read_subaddress := fun _ w =>
       ((EHMS_OK, {| msg_data := replicate 32 0 |}), w);
     param_db_get_limits := fun _ w =>
       ((EHMS_ERROR,
         {| min_value := S754_zero false; max_value := S754_zero false |}), w);
     error_report := fun _ _ w => w |}.

(** The configuration of the unit tests. *)
Definition test_config : daq_config_t :=
  {| sample_rate_hz := 100; engine_count := 2;
     arinc_config := replicate 4 {| speed := 1; parity := 1 |} |}.

(** One second past midnight: 1000 ms on the test clock. *)
Definition test_ts : ehms_timestamp_t :=
  {| year := 2025; month := 1; day := 15; hour := 0; minute := 0;
     second := 1; millisecond := 0 |}.

(** The machine after a successful [daq_init]. *)
Definition initialized_machine (failing : list Z) : machine :=
  (daq_init (test_drivers failing 1000 test_ts) (Some test_config)
     ([], daq_state_zero)).2.

(** The machine after [daq_init] and one [daq_execute_cycle]. *)
Definition machine_after_cycle (failing : list Z) : machine :=
  (daq_execute_cycle (test_drivers failing 1000 test_ts)
     (initialized_machine failing)).2.

(** ** Histories of reads

    Between two calls of [daq_update_statistics] only the clock field of
    the state, among those the function reads, changes.  A read event is
    the bus, the outcome of the read, and the clock at that time. *)

Record read_event := { ev_bus : Z; ev_success : bool; ev_now : Z }.

(** Conversion of an argument to [uint8_t]. *)
Definition wrap8 (z : Z) : Z := z mod 2 ^ 8.

Definition set_time (d : daq_module_state_t) (now : Z) : daq_module_state_t :=
  {| is_initialized := is_initialized d; state := state d;
     cycle_count := cycle_count d; current_time_ms := now;
     sources := sources d; engine_data := engine_data d;
     last_error := last_error d |}.

Definition record_read (d : daq_module_state_t) (ev : read_event)
  : daq_module_state_t :=
  daq_update_statistics (wrap8 (ev_bus ev)) (ev_success ev)
    (set_time d (ev_now ev)).

Definition record_reads (d : daq_module_state_t) (evs : list read_event)
  : daq_module_state_t := fold_left record_read evs d.

(** [s_daq_state.sources[b]]. *)
Definition source_of (b : Z) (d : daq_module_state_t) : daq_source_info_t :=
  sources d !!! Z.to_nat b.

(** The state of the sources right after [daq_init]. *)
Definition sources_initialized : daq_module_state_t :=
  daq_init_sources daq_state_zero.

(** Every read of [evs] on bus [b] fails. *)
Definition failures_only (b : Z) (evs : list read_event) : bool :=
  forallb (fun ev => negb (wrap8 (ev_bus ev) =? b) || negb (ev_success ev)) evs.

(** The number of reads of [evs] made on bus [b]. *)
Definition reads_on (b : Z) (evs : list read_event) : Z :=
  Z.of_nat (length (List.filter (fun ev => wrap8 (ev_bus ev) =? b) evs)).

(** A failing, and a successful, read on bus [b]. *)
Definition failed_read (b : Z) : read_event :=
  {| ev_bus := b; ev_success := false; ev_now := 1000 |}.
Definition good_read (b : Z) : read_event :=
  {| ev_bus := b; ev_success := true; ev_now := 1000 |}.

(** The counter stays a [uint32_t], and an active source has fewer than
    five consecutive failures. *)
Definition source_ok (src : daq_source_info_t) : Prop :=
  0 <= failure_count src < 2 ^ 32
  /\ (src_is_active src = true ->
      failure_count src < DAQ_MAX_CONSECUTIVE_FAILURES).

End DataAcquisition.

(* ===================================================================== *)
(** * Vocabulary for the properties of the alert manager                  *)
(* ===================================================================== *)

Module AlertFacts.
Import AlertManager.


Definition EHMS_PARAM_IS_VALID (st : ehms_param_status_t) : bool :=
  param_status_val st =? param_status_val EHMS_PARAM_VALID.

(** The greatest level among a list of alerts, [EHMS_ALERT_NONE] (0) for
    the empty list. *)
Definition max_level (l : list ehms_alert_t) : Z :=
  foldr (fun a m => Z.max (alert_level_val (level a)) m) 0 l.

(** The port calls made for a list of new alerts: each alert is posted to
    EICAS and then logged to the recorder. *)
Definition publications (l : list ehms_alert_t) : list port_event :=
  l ≫= (fun a => [eicas_post_message a; recorder_log_alert a]).



(** The state reached from [alert_init] by the calls [cs]. *)
Definition reached (cs : list alert_call) : alert_state_t :=
  alert_run initial_state cs.

(** Engine 1 with a Valid oil pressure of [psi]. *)
Definition oil_snapshot (psi : Z) : ehms_engine_snapshot_t :=
  with_param (nominal_snapshot 0) EHMS_PARAM_OIL_PRESS EHMS_PARAM_VALID
    (f32_of_Z psi).

(** The oil pressure warning row, fourth of the table. *)
Definition oil_warning_row : alert_threshold_t :=
  mk_threshold EHMS_PARAM_OIL_PRESS EHMS_ALERT_WARNING 15 false 0x2002
    "ENG %d OIL PRESS CRIT".

(** Identifiers are handed out in slot order, starting at 1. *)
Definition ids_sequential (s : alert_state_t) : Prop :=
  alert_state_wf s
  /\ next_alert_id s = active_count s + 1
  /\ forall (i : nat) (a : ehms_alert_t),
       Z.of_nat i < active_count s -> alerts s !! i = Some a ->
       alert_id a = Z.of_nat i + 1.

(** No call of [cs] is an acknowledgement. *)
Definition no_acknowledge (cs : list alert_call) : bool :=
  forallb (fun c => match c with call_process _ => true | _ => false end) cs.

Definition is_warning_alert (a : ehms_alert_t) : bool :=
  alert_level_val (level a) =? alert_level_val EHMS_ALERT_WARNING.

Definition is_caution_alert (a : ehms_alert_t) : bool :=
  alert_level_val (level a) =? alert_level_val EHMS_ALERT_CAUTION.

(** A Valid sample with engineering value [v]. *)
Definition sample (v : spec_float) : ehms_parameter_t :=
  {| param_id := 0; status := EHMS_PARAM_VALID; raw_value := 0;
     eng_value := v; timestamp := timestamp_zero; source_bus := 0 |}.

(** The snapshot [snap] with one and the same sample in every parameter. *)
Definition uniform_snapshot (snap : ehms_engine_snapshot_t)
    (x : ehms_parameter_t) : ehms_engine_snapshot_t :=
  {| engine_id := engine_id snap; sample_time := sample_time snap;
     flight_phase := flight_phase snap;
     parameters := replicate (Z.to_nat EHMS_PARAM_COUNT) x;
     health_status := health_status snap; crc32 := crc32 snap |}.



(** The master indicators are backed by an active alert of their level. *)
Definition masters_sound (s : alert_state_t) : Prop :=
  alert_state_wf s
  /\ implb (master_warning s) (existsb is_warning_alert (active_alerts s)) = true
  /\ implb (master_caution s) (existsb is_caution_alert (active_alerts s)) = true.

(** The master indicators tell exactly whether such an alert is active. *)
Definition masters_exact (s : alert_state_t) : Prop :=
  alert_state_wf s
  /\ master_warning s = existsb is_warning_alert (active_alerts s)
  /\ master_caution s = existsb is_caution_alert (active_alerts s).

Definition highest_is_max (s : alert_state_t) : Prop :=
  alert_state_wf s
  /\ alert_level_val (highest_level s) = max_level (active_alerts s).

End AlertFacts.

(* ===================================================================== *)
(** * Vocabulary for the properties of the acquisition module             *)
(* ===================================================================== *)

Module DaqFacts.
Import DataAcquisition.

(** Every element of [data] is a [uint8_t]. *)
Definition is_bytes (data : list Z) : bool :=
  forallb (fun b => (0 <=? b) && (b <? 2 ^ 8)) data.

(** The module state with [slot] stored in [engine_data[eng]]. *)
Definition store_slot (eng : Z) (slot : ehms_engine_snapshot_t)
    (d : daq_module_state_t) : daq_module_state_t :=
  set_engine_data d (<[Z.to_nat eng := slot]> (engine_data d)).

(** The CRC of the payload of [slot], as writer and reader compute it. *)
Definition payload_crc (slot : ehms_engine_snapshot_t) : Z :=
  daq_calculate_crc32 (snapshot_bytes slot) (sizeof_snapshot - sizeof_uint32).

(** The number of failed reads of [evs] made on bus [b]. *)
Definition failed_on (b : Z) (evs : list read_event) : Z :=
  Z.of_nat
    (length (List.filter
               (fun ev => (wrap8 (ev_bus ev) =? b) && negb (ev_success ev))
               evs)).

(** The module state that a successful [daq_init] leaves. *)
Definition ready_state : daq_module_state_t :=
  {| is_initialized := true; state := EHMS_STATE_INIT; cycle_count := 0;
     current_time_ms := 0; sources := sources sources_initialized;
     engine_data := replicate (Z.to_nat EHMS_MAX_ENGINES) snapshot_zero;
     last_error := EHMS_OK |}.

(** Slot 0 of the unit-test machine after one cycle. *)
Definition cycled_slot : ehms_engine_snapshot_t :=
  engine_data (machine_after_cycle []).2 !!! 0%nat.

(** A computation whose effect on the module state stays within [R]. *)
Definition respects {W A}
    (R : daq_module_state_t -> daq_module_state_t -> Prop) (c : @M W A)
  : Prop :=
  forall (w : W) (d : daq_module_state_t), R d (c (w, d)).2.2.

(** The members of a snapshot that acquisition does not write. *)
Definition slot_frame (s s' : ehms_engine_snapshot_t) : Prop :=
  engine_id s' = engine_id s
  /\ flight_phase s' = flight_phase s
  /\ health_status s' = health_status s
  /\ length (parameters s') = length (parameters s).

(** What the loop over the engines leaves alone. *)
Definition acquisition_frame (d d' : daq_module_state_t) : Prop :=
  is_initialized d' = is_initialized d
  /\ state d' = state d
  /\ last_error d' = last_error d
  /\ cycle_count d' = cycle_count d
  /\ current_time_ms d' = current_time_ms d
  /\ length (sources d') = length (sources d)
  /\ (forall b : nat, (1 <= b)%nat -> sources d' !! b = sources d !! b)
  /\ length (engine_data d') = length (engine_data d)
  /\ forall e : nat, slot_frame (engine_data d !!! e) (engine_data d' !!! e).

(** The state at the start of a cycle: the clock is read and the cycle
    counted. *)
Definition begin_cycle (d : daq_module_state_t) (now : Z)
  : daq_module_state_t :=
  {| is_initialized := is_initialized d; state := state d;
     cycle_count := wrap32 (cycle_count d + 1);
     current_time_ms := now;
     sources := sources d; engine_data := engine_data d;
     last_error := last_error d |}.


(** The shape of the C object: four snapshot slots of 48 parameters. *)
Definition daq_shape (d : daq_module_state_t) : bool :=
  (length (engine_data d) =? Z.to_nat EHMS_MAX_ENGINES)%nat
  && forallb
       (fun s => (length (parameters s) =? Z.to_nat EHMS_PARAM_COUNT)%nat)
       (engine_data d).

(** [x] is not Valid, or its age at the time of the cycle is at most
    [DAQ_STALE_TIMEOUT_MS]; the age is computed as [daq_check_staleness]
    does. *)
Definition fresh {W} (drv : drivers W) (d : daq_module_state_t)
    (x : ehms_parameter_t) : Prop :=
  status x = EHMS_PARAM_VALID ->
  wrap32 (current_time_ms d - timestamp_to_ms drv (timestamp x))
  <= DAQ_STALE_TIMEOUT_MS.

(** The frame, and the parameters of slot [i] kept. *)
Definition slot_kept (i : nat) (d d' : daq_module_state_t) : Prop :=
  acquisition_frame d d'
  /\ parameters (engine_data d' !!! i) = parameters (engine_data d !!! i).

(** [daq_shape], as a proposition about the slots. *)
Definition shape_ok (d : daq_module_state_t) : Prop :=
  length (engine_data d) = Z.to_nat EHMS_MAX_ENGINES
  /\ forall e : nat,
       (e < Z.to_nat EHMS_MAX_ENGINES)%nat ->
       length (parameters (engine_data d !!! e)) = Z.to_nat EHMS_PARAM_COUNT.

(** The validation and staleness sweep over the parameters of [eng]. *)
Definition sweep {W} (drv : drivers W) (eng : Z) (l : list Z) : @M W unit :=
  for_each l
    (fun p (_ : unit) =>
       bind (daq_validate_parameter drv eng p)
         (fun _ => bind (daq_check_staleness drv eng p) (fun _ => ret tt)))
    tt.

(** The engine indices of a loop come in increasing order. *)
Fixpoint increasing (l : list Z) : Prop :=
  match l with
  | [] => True
  | x :: rest => Forall (Z.lt x) rest /\ increasing rest
  end.






End DaqFacts.
(* ===================================================================== *)
(** * Properties of the alert engine                                      *)
(* ===================================================================== *)

Section AlertEngine.
Import AlertManager.

(** ** Basic facts about one loop iteration *)

Lemma wrap32_small z : 0 <= z < 2 ^ 32 -> wrap32 z = z.
Proof. intros H. unfold wrap32. apply Z.mod_small. exact H. Qed.

Lemma alert_level_val_inj l1 l2 :
  alert_level_val l1 = alert_level_val l2 -> l1 = l2.
Proof. destruct l1, l2; simpl; intros H; try reflexivity; discriminate H. Qed.

Lemma alert_level_val_range l : 0 <= alert_level_val l <= 4.
Proof. destruct l; simpl; lia. Qed.

Lemma alert_matches_key thresh snap a :
  alert_matches thresh snap a = true <-> alert_key a = threshold_key snap thresh.
Proof.
  unfold alert_matches, alert_key, threshold_key.
  rewrite !andb_true_iff, !Z.eqb_eq. split.
  - intros [[-> ->] ->]. reflexivity.
  - intros [= -> -> ->]. auto.
Qed.

(** Either the iteration does nothing, or it takes the creation branch. *)
Lemma process_threshold_cases snap s out thresh :
  process_threshold snap (s, out) thresh = (s, out)
  \/ (status (threshold_param snap thresh) = EHMS_PARAM_VALID
      /\ exceeded thresh (threshold_param snap thresh) = true
      /\ already_active s thresh snap = false
      /\ active_count s < EHMS_MAX_ACTIVE_ALERTS
      /\ process_threshold snap (s, out) thresh =
           (raise_alert s thresh snap,
            out ++ [eicas_post_message
                      (new_alert s thresh snap
                         (alerts s !!! Z.to_nat (active_count s)));
                    recorder_log_alert
                      (new_alert s thresh snap
                         (alerts s !!! Z.to_nat (active_count s)))])).
Proof.
  unfold process_threshold, threshold_param.
  destruct (status _) eqn:Hst; auto.
  destruct (exceeded _ _) eqn:Hex; auto.
  destruct (already_active _ _ _) eqn:Hact; simpl; auto.
  destruct (active_count s <? EHMS_MAX_ACTIVE_ALERTS) eqn:Hlt; auto.
  right. apply Z.ltb_lt in Hlt. auto.
Qed.

(** A relation that every iteration respects is respected by the loop. *)
Lemma fold_process_rel snap (R : alert_state_t -> alert_state_t -> Prop) :
  (forall s, R s s) ->
  (forall s1 s2 s3, R s1 s2 -> R s2 s3 -> R s1 s3) ->
  (forall s out t, R s (process_threshold snap (s, out) t).1) ->
  forall l s out, R s (fold_left (process_threshold snap) l (s, out)).1.
Proof.
  intros Hrefl Htrans Hstep l. induction l as [|t l IH]; intros s out.
  - apply Hrefl.
  - cbn [fold_left].
    pose proof (Hstep s out t) as Hs.
    destruct (process_threshold snap (s, out) t) as [s1 out1].
    eapply Htrans; [exact Hs|apply IH].
Qed.

Lemma process_snapshot_state s snap :
  (alert_process_snapshot s (Some snap)).1.2 =
  (fold_left (process_threshold snap) s_thresholds (s, [])).1.
Proof.
  unfold alert_process_snapshot.
  destruct (fold_left _ _ _) as [s' out]. reflexivity.
Qed.

(** When the creation branch is not taken on an exceeded row, the reason
    is one of the two guards. *)
Lemma process_threshold_exceeded snap s out thresh :
  status (threshold_param snap thresh) = EHMS_PARAM_VALID ->
  exceeded thresh (threshold_param snap thresh) = true ->
  (process_threshold snap (s, out) thresh = (s, out)
   /\ (already_active s thresh snap = true
       \/ EHMS_MAX_ACTIVE_ALERTS <= active_count s))
  \/ (already_active s thresh snap = false
      /\ active_count s < EHMS_MAX_ACTIVE_ALERTS
      /\ (process_threshold snap (s, out) thresh).1 = raise_alert s thresh snap).
Proof.
  unfold process_threshold, threshold_param. intros -> ->.
  destruct (already_active _ _ _) eqn:Hact; cbn [negb andb]; auto.
  destruct (active_count s <? EHMS_MAX_ACTIVE_ALERTS) eqn:Hlt.
  - right. apply Z.ltb_lt in Hlt. auto.
  - left. apply Z.ltb_ge in Hlt. auto.
Qed.

Lemma process_threshold_full snap s out thresh :
  EHMS_MAX_ACTIVE_ALERTS <= active_count s ->
  process_threshold snap (s, out) thresh = (s, out).
Proof.
  intros Hfull.
  destruct (process_threshold_cases snap s out thresh)
    as [H | (_ & _ & _ & Hlt & _)]; [exact H | lia].
Qed.

Lemma fold_process_full snap l s out :
  EHMS_MAX_ACTIVE_ALERTS <= active_count s ->
  fold_left (process_threshold snap) l (s, out) = (s, out).
Proof.
  intros Hfull. induction l as [|t l IH]; [reflexivity|].
  cbn [fold_left]. rewrite process_threshold_full by exact Hfull. exact IH.
Qed.

(** ** The creation branch *)

Lemma raise_alert_wf s thresh snap :
  alert_state_wf s -> active_count s < EHMS_MAX_ACTIVE_ALERTS ->
  alert_state_wf (raise_alert s thresh snap).
Proof.
  unfold alert_state_wf, raise_alert, EHMS_MAX_ACTIVE_ALERTS.
  cbn [alerts active_count]. intros [Hlen Hac] Hlt.
  rewrite length_insert. split; [exact Hlen|].
  rewrite wrap32_small; lia.
Qed.

Lemma raise_alert_active s thresh snap :
  alert_state_wf s -> active_count s < EHMS_MAX_ACTIVE_ALERTS ->
  active_alerts (raise_alert s thresh snap) =
  active_alerts s
    ++ [new_alert s thresh snap (alerts s !!! Z.to_nat (active_count s))].
Proof.
  unfold alert_state_wf, EHMS_MAX_ACTIVE_ALERTS. intros [Hlen Hac] Hlt.
  unfold active_alerts, raise_alert. cbn [alerts active_count].
  rewrite wrap32_small by lia.
  replace (Z.to_nat (active_count s + 1)) with (S (Z.to_nat (active_count s)))
    by lia.
  erewrite take_S_r.
  - rewrite take_insert_ge by lia. reflexivity.
  - apply list_lookup_insert_eq. lia.
Qed.

Lemma new_alert_key s thresh snap slot :
  alert_key (new_alert s thresh snap slot) = threshold_key snap thresh.
Proof. reflexivity. Qed.

Lemma already_active_false s thresh snap a :
  already_active s thresh snap = false -> a ∈ active_alerts s ->
  alert_key a <> threshold_key snap thresh.
Proof.
  unfold already_active. intros Hex Hin Hkey.
  apply alert_matches_key in Hkey.
  assert (existsb (alert_matches thresh snap) (active_alerts s) = true) as Ht.
  { apply existsb_exists. exists a. split; [|exact Hkey].
    apply list_elem_of_In. exact Hin. }
  congruence.
Qed.

Lemma already_active_true s thresh snap :
  already_active s thresh snap = true ->
  exists (i : nat) (a : ehms_alert_t),
    Z.of_nat i < active_count s /\ alerts s !! i = Some a
    /\ alert_key a = threshold_key snap thresh.
Proof.
  unfold already_active, active_alerts. intros Hex.
  apply existsb_exists in Hex as (a & Hin & Hm).
  apply list_elem_of_In, elem_of_take in Hin as (i & Hi & Hlt).
  exists i, a. split; [lia|]. split; [exact Hi|].
  apply alert_matches_key. exact Hm.
Qed.

Lemma already_active_intro s thresh snap (i : nat) a :
  Z.of_nat i < active_count s -> alerts s !! i = Some a ->
  alert_key a = threshold_key snap thresh ->
  already_active s thresh snap = true.
Proof.
  intros Hlt Hi Hkey. unfold already_active, active_alerts.
  apply existsb_exists. exists a. split.
  - apply list_elem_of_In, elem_of_take. exists i. split; [exact Hi|lia].
  - apply alert_matches_key. exact Hkey.
Qed.

(** ** Growth of the active set during one call *)

Lemma grows_refl snap s : alert_state_wf s -> grows snap s s.
Proof.
  intros Hwf. unfold grows. split; [exact Hwf|]. split; [lia|].
  split; [reflexivity|]. intros i a Hi. lia.
Qed.

Lemma grows_trans snap s1 s2 s3 :
  grows snap s1 s2 -> grows snap s2 s3 -> grows snap s1 s3.
Proof.
  intros (Hwf2 & Hle12 & Hkeep12 & Hnew12) (Hwf3 & Hle23 & Hkeep23 & Hnew23).
  split; [exact Hwf3|]. split; [lia|]. split.
  - intros i Hi. rewrite Hkeep23 by lia. apply Hkeep12. exact Hi.
  - intros i a Hi Ha.
    destruct (Z_lt_le_dec (Z.of_nat i) (active_count s2)) as [Hlt | Hge].
    + apply (Hnew12 i); [lia|]. rewrite <- Hkeep23 by exact Hlt. exact Ha.
    + apply (Hnew23 i); [lia|exact Ha].
Qed.

Lemma raise_alert_grows snap s thresh :
  alert_state_wf s -> active_count s < EHMS_MAX_ACTIVE_ALERTS ->
  status (threshold_param snap thresh) = EHMS_PARAM_VALID ->
  grows snap s (raise_alert s thresh snap).
Proof.
  intros Hwf Hlt Hvalid.
  split; [apply raise_alert_wf; assumption|].
  destruct Hwf as [Hlen Hac].
  unfold EHMS_MAX_ACTIVE_ALERTS in *. unfold raise_alert.
  cbn [alerts active_count]. rewrite wrap32_small by lia.
  split; [lia|]. split.
  - intros i Hi. apply list_lookup_insert_ne. lia.
  - intros i a Hi Ha.
    assert (i = Z.to_nat (active_count s)) as -> by lia.
    rewrite list_lookup_insert_eq in Ha by lia.
    injection Ha as <-. unfold raised_by, new_alert; cbn.
    repeat split. exact Hvalid.
Qed.

Lemma process_threshold_grows snap s out thresh :
  alert_state_wf s -> grows snap s (process_threshold snap (s, out) thresh).1.
Proof.
  intros Hwf.
  destruct (process_threshold_cases snap s out thresh)
    as [-> | (Hvalid & _ & _ & Hlt & ->)].
  - apply grows_refl. exact Hwf.
  - apply raise_alert_grows; assumption.
Qed.

Lemma fold_process_grows snap l s out :
  alert_state_wf s ->
  grows snap s (fold_left (process_threshold snap) l (s, out)).1.
Proof.
  revert l s out.
  apply (fold_process_rel snap
           (fun s s' => alert_state_wf s -> grows snap s s')).
  - intros s. apply grows_refl.
  - intros s1 s2 s3 H12 H23 Hwf. eapply grows_trans; [apply H12, Hwf|].
    apply H23. apply (H12 Hwf).
  - intros s out t. apply process_threshold_grows.
Qed.

Lemma fold_process_keeps snap l s out :
  keeps_alerts s (fold_left (process_threshold snap) l (s, out)).1.
Proof.
  revert l s out. apply (fold_process_rel snap keeps_alerts).
  - intros s. split; [lia|reflexivity].
  - intros s1 s2 s3 [Hle12 Hk12] [Hle23 Hk23]. split; [lia|].
    intros i Hi. rewrite Hk23 by lia. apply Hk12. exact Hi.
  - intros s out t.
    destruct (process_threshold_cases snap s out t)
      as [-> | (_ & _ & _ & Hlt & ->)];
      [cbn [fst]; split; [lia|reflexivity]|].
    unfold raise_alert, keeps_alerts, EHMS_MAX_ACTIVE_ALERTS in *.
    cbn [fst alerts active_count]. split.
    + unfold wrap32.
      destruct (Z_lt_le_dec (active_count s) 0) as [Hneg | Hpos].
      * pose proof (Z.mod_pos_bound (active_count s + 1) (2 ^ 32)). lia.
      * rewrite Z.mod_small; lia.
    + intros i Hi. apply list_lookup_insert_ne. lia.
Qed.

(** ** Clearing of alerts *)

(** C3, counterexample.  Engine 2 holds an active, non-latched EGT caution
    alert; the next snapshot has a Valid EGT of 900, below the threshold of
    950.  The call leaves the alert in slot 0 of the active set, with
    [clear_time] still zero, and [active_count] stays 1: the alert is not
    cleared. *)
Lemma alert_clear_counterexample :
  let s := caution_state in
  let snap := egt_snapshot 1 900 in
  let s' := (alert_process_snapshot s (Some snap)).1.2 in
  status (threshold_param snap egt_caution_row) = EHMS_PARAM_VALID
  /\ exceeded egt_caution_row (threshold_param snap egt_caution_row) = false
  /\ active_count s = 1
  /\ alerts s !! 0%nat = Some caution_alert
  /\ alert_key caution_alert = threshold_key snap egt_caution_row
  /\ is_latched caution_alert = false
  /\ active_count s' = 1
  /\ alerts s' !! 0%nat = Some caution_alert
  /\ clear_time caution_alert = timestamp_zero
  /\ s' = s.
Proof. vm_compute. repeat split. Qed.

(** C3, as the code has it.  When [alert_process_snapshot] observes a Valid
    parameter that is not exceeded while an active non-latched alert exists
    for the tuple, the row does nothing and the alert is kept: after the call
    it is still in its slot of the active set with every field, [clear_time]
    included, unchanged. *)
Theorem alert_not_cleared s snap thresh (i : nat) a :
  status (threshold_param snap thresh) = EHMS_PARAM_VALID ->
  exceeded thresh (threshold_param snap thresh) = false ->
  Z.of_nat i < active_count s ->
  alerts s !! i = Some a ->
  alert_key a = threshold_key snap thresh ->
  is_latched a = false ->
  (forall out, process_threshold snap (s, out) thresh = (s, out))
  /\ alerts (alert_process_snapshot s (Some snap)).1.2 !! i = Some a
  /\ Z.of_nat i < active_count (alert_process_snapshot s (Some snap)).1.2.
Proof.
  intros Hvalid Hnot Hi Ha _ _. split.
  - intros out. unfold process_threshold. fold (threshold_param snap thresh).
    rewrite Hvalid, Hnot. reflexivity.
  - rewrite process_snapshot_state.
    destruct (fold_process_keeps snap s_thresholds s []) as [Hle Hkeep].
    split; [|lia]. rewrite Hkeep by exact Hi. exact Ha.
Qed.

Lemma alert_not_cleared_witness :
  (forall out,
      process_threshold (egt_snapshot 1 900) (caution_state, out)
        egt_caution_row = (caution_state, out))
  /\ alerts (alert_process_snapshot caution_state
               (Some (egt_snapshot 1 900))).1.2 !! 0%nat = Some caution_alert
  /\ Z.of_nat 0 < active_count (alert_process_snapshot caution_state
                                  (Some (egt_snapshot 1 900))).1.2.
Proof.
  apply (alert_not_cleared caution_state (egt_snapshot 1 900) egt_caution_row
           0%nat caution_alert); vm_compute; reflexivity.
Defined.

(** ** Debounce *)

(** C4, counterexample.  Right after [alert_init] a single call with an EGT
    of 950 on engine 2 allocates the caution alert: one observation, fewer
    than [ALERT_DEBOUNCE_CYCLES]. *)
Lemma alert_debounce_counterexample :
  let snap := egt_snapshot 1 950 in
  let s' := (alert_process_snapshot initial_state (Some snap)).1.2 in
  active_count initial_state = 0
  /\ 1 < ALERT_DEBOUNCE_CYCLES
  /\ active_count s' = 1
  /\ alerts s' !! 0%nat = Some caution_alert
  /\ alert_key caution_alert = threshold_key snap egt_caution_row.
Proof. vm_compute. repeat split. Qed.

Lemma fold_process_allocates snap thresh l :
  thresh ∈ l ->
  status (threshold_param snap thresh) = EHMS_PARAM_VALID ->
  exceeded thresh (threshold_param snap thresh) = true ->
  forall s out, alert_state_wf s ->
    already_active (fold_left (process_threshold snap) l (s, out)).1
      thresh snap = true
    \/ active_count (fold_left (process_threshold snap) l (s, out)).1
       = EHMS_MAX_ACTIVE_ALERTS.
Proof.
  intros Hin Hvalid Hex. induction l as [|t l IH]; [inversion Hin|].
  intros s out Hwf. cbn [fold_left].
  pose proof (process_threshold_grows snap s out t Hwf) as Hg1.
  destruct (process_threshold snap (s, out) t) as [s1 out1] eqn:Estep.
  cbn [fst] in Hg1. pose proof Hg1 as (Hwf1 & _).
  apply elem_of_cons in Hin as [-> | Hin]; [|apply IH; assumption].
  pose proof (fold_process_grows snap l s1 out1 Hwf1)
    as (Hwf' & Hle & Hkeep & _).
  assert (already_active s1 t snap = true
          \/ EHMS_MAX_ACTIVE_ALERTS <= active_count s1) as [Hact | Hfull].
  { destruct (process_threshold_exceeded snap s out t Hvalid Hex)
      as [[E H] | (Hno & Hlt & E)]; rewrite Estep in E.
    - injection E as -> ->. exact H.
    - cbn [fst] in E. subst s1. left. unfold already_active.
      rewrite raise_alert_active by assumption.
      rewrite existsb_app. cbn [existsb].
      replace (alert_matches t snap _) with true; [apply orb_true_r|].
      symmetry. apply alert_matches_key, new_alert_key. }
  - left. apply already_active_true in Hact as (i & a & Hi & Ha & Hkey).
    apply (already_active_intro _ _ _ i a); [lia| |exact Hkey].
    rewrite Hkeep by exact Hi. exact Ha.
  - right. destruct Hwf' as [_ Hac]. lia.
Qed.

(** C4, as the code has it.  No debounce is applied: the first call that
    observes a Valid parameter meeting a threshold row allocates the alert
    for the tuple in that very call, in a slot past the previous
    [active_count], unless the active set is full after the call. *)
Theorem alert_raised_on_first_exceedance s snap thresh (k : nat) :
  alert_state_wf s ->
  s_thresholds !! k = Some thresh ->
  status (threshold_param snap thresh) = EHMS_PARAM_VALID ->
  exceeded thresh (threshold_param snap thresh) = true ->
  already_active s thresh snap = false ->
  active_count (alert_process_snapshot s (Some snap)).1.2
    = EHMS_MAX_ACTIVE_ALERTS
  \/ exists (i : nat) (a : ehms_alert_t),
       active_count s <= Z.of_nat i
         < active_count (alert_process_snapshot s (Some snap)).1.2
       /\ alerts (alert_process_snapshot s (Some snap)).1.2 !! i = Some a
       /\ alert_key a = threshold_key snap thresh
       /\ is_active a = true
       /\ onset_time a = sample_time snap.
Proof.
  intros Hwf Hk Hvalid Hex Hno. rewrite process_snapshot_state.
  apply list_elem_of_lookup_2 in Hk.
  pose proof (fold_process_grows snap s_thresholds s [] Hwf)
    as (_ & _ & Hkeep & Hnew).
  destruct (fold_process_allocates snap thresh s_thresholds Hk Hvalid Hex
              s [] Hwf) as [Hact | Hfull]; [|left; exact Hfull].
  right. apply already_active_true in Hact as (i & a & Hi & Ha & Hkey).
  exists i, a.
  assert (active_count s <= Z.of_nat i) as Hge.
  { destruct (Z_lt_le_dec (Z.of_nat i) (active_count s)) as [Hlt | Hge];
      [|exact Hge].
    exfalso. rewrite Hkeep in Ha by exact Hlt.
    pose proof (already_active_intro s thresh snap i a Hlt Ha Hkey).
    congruence. }
  destruct (Hnew i a (conj Hge Hi) Ha) as (_ & Honset & Hactive & _).
  auto.
Qed.

Lemma alert_raised_on_first_exceedance_witness :
  active_count (alert_process_snapshot initial_state
                  (Some (egt_snapshot 1 950))).1.2 = EHMS_MAX_ACTIVE_ALERTS
  \/ exists (i : nat) (a : ehms_alert_t),
       active_count initial_state <= Z.of_nat i
         < active_count (alert_process_snapshot initial_state
                           (Some (egt_snapshot 1 950))).1.2
       /\ alerts (alert_process_snapshot initial_state
                    (Some (egt_snapshot 1 950))).1.2 !! i = Some a
       /\ alert_key a = threshold_key (egt_snapshot 1 950) egt_caution_row
       /\ is_active a = true
       /\ onset_time a = sample_time (egt_snapshot 1 950).
Proof.
  apply (alert_raised_on_first_exceedance initial_state (egt_snapshot 1 950)
           egt_caution_row 0%nat).
  - split; [reflexivity | vm_compute; split; discriminate].
  - reflexivity.
  - reflexivity.
  - vm_compute. reflexivity.
  - vm_compute. reflexivity.
Defined.

(** ** Saturation of the active set *)

(** C5, counterexample.  With 32 active alerts, a call for a fourth engine
    whose EGT caution row is met by a Valid parameter, and for which no alert
    is active, returns [EHMS_OK]: no error is reported for the drop. *)
Lemma alert_queue_full_counterexample :
  let snap := overlimit_snapshot 3 in
  active_count full_state = EHMS_MAX_ACTIVE_ALERTS
  /\ status (threshold_param snap egt_caution_row) = EHMS_PARAM_VALID
  /\ exceeded egt_caution_row (threshold_param snap egt_caution_row) = true
  /\ already_active full_state egt_caution_row snap = false
  /\ (alert_process_snapshot full_state (Some snap)).1.1 = EHMS_OK
  /\ result_is_ok (alert_process_snapshot full_state (Some snap)).1.1 = true.
Proof. vm_compute. repeat split. Qed.

(** C5, as the code has it.  When the active set is full, a call drops every
    new exceedance silently: it returns [EHMS_OK], publishes nothing, and the
    whole state, [active_count] and the existing alerts included, is
    unchanged. *)
Theorem alert_dropped_when_full s snap :
  active_count s = EHMS_MAX_ACTIVE_ALERTS ->
  alert_process_snapshot s (Some snap) = (EHMS_OK, s, []).
Proof.
  intros Hfull. unfold alert_process_snapshot.
  rewrite fold_process_full by lia. reflexivity.
Qed.

Lemma alert_dropped_when_full_witness :
  alert_process_snapshot full_state (Some (overlimit_snapshot 3))
  = (EHMS_OK, full_state, []).
Proof.
  apply (alert_dropped_when_full full_state (overlimit_snapshot 3)).
  vm_compute. reflexivity.
Defined.

(** ** Acknowledgement *)

(** C6, counterexample.  With both master indicators set,
    [alert_acknowledge(Caution)] clears master-caution but leaves
    master-warning set. *)
Lemma alert_acknowledge_counterexample :
  let s := alert_run initial_state [call_process (Some (overlimit_snapshot 0))] in
  alert_is_master_caution s = true
  /\ alert_is_master_warning s = true
  /\ alert_is_master_caution (alert_acknowledge s EHMS_ALERT_CAUTION).2 = false
  /\ alert_is_master_warning (alert_acknowledge s EHMS_ALERT_CAUTION).2 = true.
Proof. vm_compute. repeat split. Qed.

(** C6, as the code has it.  [alert_acknowledge(level)] returns [EHMS_OK] and
    clears exactly one master indicator: master-warning when [level] is
    Warning, master-caution when [level] is Caution, none below Caution; the
    other indicator keeps its value.  The active set is untouched: the alert
    slots, [active_count], [next_alert_id] and [highest_level] are
    unchanged. *)
Theorem alert_acknowledge_spec s lvl :
  (alert_acknowledge s lvl).1 = EHMS_OK
  /\ alerts (alert_acknowledge s lvl).2 = alerts s
  /\ active_count (alert_acknowledge s lvl).2 = active_count s
  /\ next_alert_id (alert_acknowledge s lvl).2 = next_alert_id s
  /\ highest_level (alert_acknowledge s lvl).2 = highest_level s
  /\ master_warning (alert_acknowledge s lvl).2 =
       match lvl with
       | EHMS_ALERT_WARNING => false
       | _ => master_warning s
       end
  /\ master_caution (alert_acknowledge s lvl).2 =
       match lvl with
       | EHMS_ALERT_CAUTION => false
       | _ => master_caution s
       end.
Proof. destruct lvl; cbn; repeat split. Qed.

(** Acknowledgement does not touch the slots, the count or the recorded
    highest level. *)
Lemma alert_acknowledge_keeps s lvl :
  alerts (alert_acknowledge s lvl).2 = alerts s
  /\ active_count (alert_acknowledge s lvl).2 = active_count s
  /\ highest_level (alert_acknowledge s lvl).2 = highest_level s.
Proof. destruct lvl; cbn; repeat split. Qed.

(** ** Uniqueness of active alerts *)

Lemma process_threshold_unique snap s out thresh :
  alert_state_wf s /\ alert_unique s ->
  alert_state_wf (process_threshold snap (s, out) thresh).1
  /\ alert_unique (process_threshold snap (s, out) thresh).1.
Proof.
  intros [Hwf Huniq].
  destruct (process_threshold_cases snap s out thresh)
    as [-> | (_ & _ & Hno & Hlt & ->)]; [auto|].
  cbn [fst]. split; [apply raise_alert_wf; assumption|].
  unfold alert_unique. rewrite raise_alert_active by assumption.
  rewrite fmap_app. apply NoDup_app. split; [exact Huniq|].
  split; [|apply NoDup_singleton].
  intros key Hkey Hnew. apply list_elem_of_singleton in Hnew.
  apply list_elem_of_fmap in Hkey as (a & -> & Ha).
  rewrite new_alert_key in Hnew.
  exact (already_active_false s thresh snap a Hno Ha Hnew).
Qed.

Lemma alert_step_unique s c :
  alert_state_wf s /\ alert_unique s ->
  alert_state_wf (alert_step s c) /\ alert_unique (alert_step s c).
Proof.
  intros Hinv. destruct c as [[snap|] | lvl]; cbn [alert_step].
  - rewrite process_snapshot_state. revert Hinv.
    apply (fold_process_rel snap
             (fun s s' => alert_state_wf s /\ alert_unique s ->
                          alert_state_wf s' /\ alert_unique s')); auto.
    intros s0 out t. apply process_threshold_unique.
  - exact Hinv.
  - destruct Hinv as [Hwf Huniq].
    pose proof (alert_acknowledge_keeps s lvl) as (Ha & Hc & _).
    unfold alert_state_wf, alert_unique, active_alerts.
    rewrite Ha, Hc. auto.
Qed.

Lemma alert_init_unique :
  alert_state_wf initial_state /\ alert_unique initial_state.
Proof.
  split.
  - split; [reflexivity | vm_compute; split; discriminate].
  - apply NoDup_nil. exact I.
Qed.

(** C7.  In every state reached from [alert_init] by calls of
    [alert_process_snapshot] (and of [alert_acknowledge]), no two slots of
    the active set carry the same [(engine_id, param_id, level)]. *)
Theorem alert_uniqueness (cs : list alert_call) :
  alert_unique (alert_run alert_init.2 cs).
Proof.
  assert (forall s, alert_state_wf s /\ alert_unique s ->
                    alert_state_wf (alert_run s cs)
                    /\ alert_unique (alert_run s cs)) as Hrun.
  { induction cs as [|c cs IH]; intros s Hinv; [exact Hinv|].
    cbn [alert_run fold_left]. apply IH, alert_step_unique, Hinv. }
  apply Hrun, alert_init_unique.
Qed.

(** ** Parameters that are not Valid *)

Lemma process_threshold_invalid snap s out thresh :
  status (threshold_param snap thresh) <> EHMS_PARAM_VALID ->
  process_threshold snap (s, out) thresh = (s, out).
Proof.
  unfold process_threshold, threshold_param. intros Hst.
  destruct (status _); [congruence | reflexivity ..].
Qed.

Lemma process_threshold_set_eng_value snap p v acc thresh :
  status (parameters snap !!! Z.to_nat p) <> EHMS_PARAM_VALID ->
  process_threshold (set_eng_value snap p v) acc thresh
  = process_threshold snap acc thresh.
Proof.
  intros Hst. destruct acc as [s out].
  unfold process_threshold, already_active, alert_matches, raise_alert,
    new_alert, set_eng_value.
  cbn [engine_id sample_time parameters].
  rewrite list_lookup_total_alter.
  destruct (decide _) as [[Heq _] | _]; [|reflexivity].
  rewrite <- Heq. cbn [status].
  destruct (status (parameters snap !!! Z.to_nat p)); [congruence|reflexivity ..].
Qed.

(** C9.  A threshold row whose parameter is Stale, Failed, NCD or Test is
    skipped: state and port output are unchanged.  And the cached
    [eng_value] of a parameter that is not Valid has no influence on the
    call: replacing it by any other value gives the same result, state and
    published alerts. *)
Theorem alert_ignores_invalid_parameters s snap thresh out p v :
  status (threshold_param snap thresh) <> EHMS_PARAM_VALID ->
  status (parameters snap !!! Z.to_nat p) <> EHMS_PARAM_VALID ->
  process_threshold snap (s, out) thresh = (s, out)
  /\ alert_process_snapshot s (Some (set_eng_value snap p v))
     = alert_process_snapshot s (Some snap).
Proof.
  intros Hrow Hp. split; [apply process_threshold_invalid, Hrow|].
  unfold alert_process_snapshot.
  replace (fold_left (process_threshold (set_eng_value snap p v))
             s_thresholds (s, []))
    with (fold_left (process_threshold snap) s_thresholds (s, []));
    [reflexivity|].
  generalize (s, @nil port_event). generalize s_thresholds.
  intros l. induction l as [|t l IH]; intros acc; [reflexivity|].
  cbn [fold_left]. rewrite process_threshold_set_eng_value by exact Hp.
  apply IH.
Qed.

Lemma alert_ignores_invalid_parameters_witness :
  process_threshold (stale_egt_snapshot 1 2000) (initial_state, [])
    egt_caution_row = (initial_state, [])
  /\ alert_process_snapshot initial_state
       (Some (set_eng_value (stale_egt_snapshot 1 2000) EHMS_PARAM_EGT
                (f32_of_Z 600)))
     = alert_process_snapshot initial_state
         (Some (stale_egt_snapshot 1 2000)).
Proof.
  apply (alert_ignores_invalid_parameters initial_state
           (stale_egt_snapshot 1 2000) egt_caution_row [] EHMS_PARAM_EGT
           (f32_of_Z 600)); vm_compute; discriminate.
Defined.

(** Every alert allocated by a call comes from a parameter that is Valid
    in the snapshot, and the slots that were active before are kept. *)
Corollary new_alerts_from_valid_parameters s snap :
  alert_state_wf s ->
  grows snap s (alert_process_snapshot s (Some snap)).1.2.
Proof.
  intros Hwf. rewrite process_snapshot_state. apply fold_process_grows, Hwf.
Qed.

(** ** The recorded highest level *)

Lemma alert_step_highest s c :
  alert_level_val (highest_level s)
  <= alert_level_val (highest_level (alert_step s c)).
Proof.
  destruct c as [[snap|] | lvl]; cbn [alert_step].
  - rewrite process_snapshot_state. revert s.
    assert (forall l s out,
               alert_level_val (highest_level s) <=
               alert_level_val
                 (highest_level (fold_left (process_threshold snap) l (s, out)).1))
      as Hfold; [|intros s; apply Hfold].
    apply (fold_process_rel snap
             (fun s s' => alert_level_val (highest_level s)
                          <= alert_level_val (highest_level s'))).
    + intros s. lia.
    + intros s1 s2 s3. lia.
    + intros s out t.
      destruct (process_threshold_cases snap s out t)
        as [-> | (_ & _ & _ & _ & ->)]; cbn [fst]; [lia|].
      unfold raise_alert. cbn [highest_level].
      destruct (alert_level_val (thr_level t) >? alert_level_val (highest_level s))
        eqn:Hgt; lia.
  - cbn. lia.
  - pose proof (alert_acknowledge_keeps s lvl) as (_ & _ & ->). lia.
Qed.

(** C10.  Along any sequence of [alert_process_snapshot] and
    [alert_acknowledge] calls, from [alert_init] or from any other state,
    the value of [alert_get_highest_level] never decreases. *)
Theorem alert_highest_level_monotone s (cs1 cs2 : list alert_call) :
  alert_level_val (alert_get_highest_level (alert_run s cs1))
  <= alert_level_val (alert_get_highest_level (alert_run s (cs1 ++ cs2))).
Proof.
  unfold alert_run, alert_get_highest_level. rewrite fold_left_app.
  generalize (fold_left alert_step cs1 s). clear s cs1.
  induction cs2 as [|c cs IH]; intros s; [cbn; lia|].
  cbn [fold_left]. pose proof (alert_step_highest s c). specialize (IH (alert_step s c)).
  lia.
Qed.

End AlertEngine.

(* ===================================================================== *)
(** * Properties of the acquisition pipeline                              *)
(* ===================================================================== *)

Section Acquisition.
Import DataAcquisition.

(** ** Source health tracking *)

Lemma record_reads_snoc d evs ev :
  record_reads d (evs ++ [ev]) = record_read (record_reads d evs) ev.
Proof. unfold record_reads. rewrite fold_left_app. reflexivity. Qed.

Lemma record_read_length d ev :
  length (sources (record_read d ev)) = length (sources d).
Proof.
  unfold record_read, daq_update_statistics.
  destruct (_ <? _); cbn [sources set_sources set_time]; [|reflexivity].
  apply length_alter.
Qed.

Lemma record_reads_length d evs :
  length (sources (record_reads d evs)) = length (sources d).
Proof.
  revert d. induction evs as [|ev evs IH]; intros d; [reflexivity|].
  cbn [record_reads fold_left]. fold (record_reads (record_read d ev) evs).
  rewrite IH. apply record_read_length.
Qed.

(** What one read does to the source of bus [b]. *)
Lemma source_of_record_read b d ev :
  0 <= b < EHMS_ARINC429_BUS_COUNT ->
  length (sources d) = Z.to_nat EHMS_ARINC429_BUS_COUNT ->
  source_of b (record_read d ev) =
  if wrap8 (ev_bus ev) =? b
  then update_source (ev_now ev) (ev_success ev) (source_of b d)
  else source_of b d.
Proof.
  unfold EHMS_ARINC429_BUS_COUNT. intros Hb Hlen.
  assert (0 <= wrap8 (ev_bus ev) < 2 ^ 8) as Hw
    by (unfold wrap8; apply Z.mod_pos_bound; lia).
  unfold source_of, record_read, daq_update_statistics, EHMS_ARINC429_BUS_COUNT.
  destruct (wrap8 (ev_bus ev) <? 4) eqn:Hlt.
  - apply Z.ltb_lt in Hlt. cbn [sources set_sources set_time current_time_ms].
    rewrite list_lookup_total_alter.
    destruct (wrap8 (ev_bus ev) =? b) eqn:Heq.
    + apply Z.eqb_eq in Heq. rewrite Heq.
      destruct (decide _) as [_ | Hn]; [reflexivity|].
      exfalso. apply Hn. split; [reflexivity|]. rewrite Hlen. lia.
    + apply Z.eqb_neq in Heq.
      destruct (decide _) as [[Hi _] | _]; [|reflexivity].
      exfalso. apply Heq. lia.
  - apply Z.ltb_ge in Hlt. cbn [sources set_time].
    destruct (wrap8 (ev_bus ev) =? b) eqn:Heq; [|reflexivity].
    apply Z.eqb_eq in Heq. lia.
Qed.

Lemma update_source_ok now success src :
  source_ok src -> source_ok (update_source now success src).
Proof.
  unfold source_ok, update_source, DAQ_MAX_CONSECUTIVE_FAILURES.
  intros [Hrange Hact]. destruct success; cbn; [split; [lia|intros; lia]|].
  pose proof (Z.mod_pos_bound (failure_count src + 1) (2 ^ 32)) as Hm.
  unfold wrap32. split; [lia|].
  destruct (_ >=? 5) eqn:Hge; [discriminate|]. lia.
Qed.

Lemma update_source_inactive now success src :
  src_is_active src = false ->
  src_is_active (update_source now success src) = false.
Proof.
  unfold update_source. intros H. destruct success; cbn; [exact H|].
  destruct (_ >=? _); [reflexivity|exact H].
Qed.

(** A deactivation happens in a read that brings the counter to five. *)
Lemma update_source_deactivates now success src :
  src_is_active src = true ->
  src_is_active (update_source now success src) = false ->
  DAQ_MAX_CONSECUTIVE_FAILURES
    <= failure_count (update_source now success src).
Proof.
  unfold update_source. intros Hact. destruct success; cbn; [congruence|].
  destruct (_ >=? _) eqn:Hge; [lia|congruence].
Qed.

Lemma sources_initialized_spec b :
  0 <= b < EHMS_ARINC429_BUS_COUNT ->
  length (sources sources_initialized) = Z.to_nat EHMS_ARINC429_BUS_COUNT
  /\ src_is_active (source_of b sources_initialized) = true
  /\ failure_count (source_of b sources_initialized) = 0.
Proof.
  unfold EHMS_ARINC429_BUS_COUNT. intros Hb.
  assert (b = 0 \/ b = 1 \/ b = 2 \/ b = 3) as [-> | [-> | [-> | ->]]] by lia;
    repeat split.
Qed.

Lemma record_reads_ok b evs :
  0 <= b < EHMS_ARINC429_BUS_COUNT ->
  source_ok (source_of b (record_reads sources_initialized evs)).
Proof.
  intros Hb. induction evs as [|ev evs IH] using rev_ind.
  - destruct (sources_initialized_spec b Hb) as (_ & Hact & Hfc).
    unfold source_ok, DAQ_MAX_CONSECUTIVE_FAILURES.
    cbn [record_reads fold_left]. rewrite Hfc. lia.
  - rewrite record_reads_snoc, source_of_record_read; [|exact Hb|].
    + destruct (_ =? _); [apply update_source_ok|]; exact IH.
    + rewrite record_reads_length.
      apply (sources_initialized_spec b Hb).
Qed.

Lemma record_reads_inactive b d evs :
  0 <= b < EHMS_ARINC429_BUS_COUNT ->
  length (sources d) = Z.to_nat EHMS_ARINC429_BUS_COUNT ->
  src_is_active (source_of b d) = false ->
  src_is_active (source_of b (record_reads d evs)) = false.
Proof.
  intros Hb. revert d. induction evs as [|ev evs IH]; intros d Hlen Hin;
    [exact Hin|].
  cbn [record_reads fold_left]. fold (record_reads (record_read d ev) evs).
  apply IH; [rewrite record_read_length; exact Hlen|].
  rewrite source_of_record_read by assumption.
  destruct (_ =? _); [apply update_source_inactive|]; exact Hin.
Qed.

(** Inactive exactly when the counter has reached five at some point of
    the history. *)
Lemma inactive_iff_reached b evs :
  0 <= b < EHMS_ARINC429_BUS_COUNT ->
  src_is_active (source_of b (record_reads sources_initialized evs)) = false
  <-> exists n : nat,
        DAQ_MAX_CONSECUTIVE_FAILURES
        <= failure_count
             (source_of b (record_reads sources_initialized (take n evs))).
Proof.
  intros Hb. split.
  - induction evs as [|ev evs IH] using rev_ind.
    + destruct (sources_initialized_spec b Hb) as (_ & Hact & _).
      cbn [record_reads fold_left]. congruence.
    + intros Hin.
      destruct (src_is_active
                  (source_of b (record_reads sources_initialized evs)))
        eqn:Hprev.
      * exists (length (evs ++ [ev])). rewrite firstn_all.
        rewrite record_reads_snoc in Hin |- *.
        rewrite source_of_record_read in Hin |- *; try exact Hb;
          try (rewrite record_reads_length;
               apply (sources_initialized_spec b Hb)).
        destruct (_ =? _); [|congruence].
        apply update_source_deactivates; assumption.
      * destruct (IH eq_refl) as [n Hn].
        exists (Nat.min n (length evs)).
        rewrite take_app_le by lia.
        destruct (Nat.le_ge_cases n (length evs)) as [Hle | Hge].
        -- rewrite Nat.min_l by exact Hle. exact Hn.
        -- rewrite Nat.min_r by exact Hge. rewrite firstn_all.
           rewrite take_ge in Hn by exact Hge. exact Hn.
  - intros [n Hn]. rewrite <- (take_drop n evs).
    unfold record_reads. rewrite fold_left_app.
    apply record_reads_inactive; [exact Hb| |].
    + fold (record_reads sources_initialized (take n evs)).
      rewrite record_reads_length. apply (sources_initialized_spec b Hb).
    + fold (record_reads sources_initialized (take n evs)).
      destruct (record_reads_ok b (take n evs) Hb) as [_ Hact].
      destruct (src_is_active _); [|reflexivity].
      specialize (Hact eq_refl). lia.
Qed.

Lemma reads_on_nonneg b evs : 0 <= reads_on b evs.
Proof. unfold reads_on. lia. Qed.

Lemma reads_on_cons b ev evs :
  reads_on b (ev :: evs) =
  if wrap8 (ev_bus ev) =? b then reads_on b evs + 1 else reads_on b evs.
Proof.
  unfold reads_on. cbn [List.filter].
  destruct (_ =? _); [cbn [length]; lia | reflexivity].
Qed.

(** Failing reads on [b], interleaved with reads on other buses, count up
    from zero, and the fifth one deactivates the source. *)
Lemma failures_count_up b evs :
  0 <= b < EHMS_ARINC429_BUS_COUNT ->
  forall d,
    length (sources d) = Z.to_nat EHMS_ARINC429_BUS_COUNT ->
    failures_only b evs = true ->
    failure_count (source_of b d) + reads_on b evs
      <= DAQ_MAX_CONSECUTIVE_FAILURES ->
    0 <= failure_count (source_of b d) ->
    failure_count (source_of b (record_reads d evs))
      = failure_count (source_of b d) + reads_on b evs
    /\ src_is_active (source_of b (record_reads d evs))
       = (if reads_on b evs =? 0 then src_is_active (source_of b d)
          else src_is_active (source_of b d)
               && (failure_count (source_of b d) + reads_on b evs
                     <? DAQ_MAX_CONSECUTIVE_FAILURES)).
Proof.
  intros Hb. unfold DAQ_MAX_CONSECUTIVE_FAILURES.
  induction evs as [|ev evs IH]; intros d Hlen Hfail Hle Hpos.
  - unfold reads_on. cbn. split; [lia|reflexivity].
  - cbn [record_reads fold_left]. fold (record_reads (record_read d ev) evs).
    cbn [failures_only forallb] in Hfail.
    apply andb_true_iff in Hfail as [Hev Hfail].
    fold (failures_only b evs) in Hfail.
    rewrite reads_on_cons in Hle |- *.
    pose proof (reads_on_nonneg b evs) as Hnn.
    pose proof (source_of_record_read b d ev Hb Hlen) as Hstep.
    specialize (IH (record_read d ev)).
    rewrite record_read_length in IH. specialize (IH Hlen Hfail).
    destruct (wrap8 (ev_bus ev) =? b) eqn:Heq.
    + cbn [negb orb] in Hev. apply negb_true_iff in Hev.
      rewrite Hev in Hstep.
      assert (failure_count (source_of b (record_read d ev))
              = failure_count (source_of b d) + 1) as Hfc.
      { rewrite Hstep. unfold update_source. cbn.
        apply wrap32_small. lia. }
      assert (src_is_active (source_of b (record_read d ev))
              = src_is_active (source_of b d)
                && (failure_count (source_of b d) + 1 <? 5)) as Hact.
      { rewrite Hstep. unfold update_source, DAQ_MAX_CONSECUTIVE_FAILURES.
        cbn. rewrite wrap32_small by lia.
        destruct (Z.ltb_spec (failure_count (source_of b d) + 1) 5);
          destruct (src_is_active (source_of b d)); cbn [andb];
          destruct (_ >=? 5) eqn:Hge; try reflexivity; lia. }
      rewrite Hfc, Hact in IH.
      destruct IH as [IHfc IHact]; [lia|lia|].
      rewrite IHfc, IHact. split; [lia|].
      set (k := reads_on b evs) in *. set (f := failure_count (source_of b d)) in *.
      destruct (Z.eqb_spec (k + 1) 0) as [E0|E0]; [lia|].
      replace (f + 1 + k) with (f + (k + 1)) by lia.
      destruct (Z.eqb_spec k 0) as [E1|E1].
      * rewrite E1. reflexivity.
      * destruct (src_is_active (source_of b d)); [|reflexivity].
        cbn [andb].
        destruct (Z.ltb_spec (f + 1) 5); destruct (Z.ltb_spec (f + (k + 1)) 5);
          try reflexivity; lia.
    + rewrite Hstep in IH. apply IH; assumption.
Qed.

(** C8.  For every bus [b]: after any history of reads since [daq_init],
    the source is inactive if and only if its [failure_count] had reached 5
    at some point of that history.  Starting with a counter of zero, failing
    reads on [b] (with reads on other buses in between) count up one by one,
    and the source stays as it was up to the fourth and is inactive at the
    fifth.  A successful read, in any state of the history, resets
    [failure_count] to 0 and leaves [is_active] as it was, so an inactive
    source stays inactive. *)
Theorem source_deactivation (b : Z) (history fails : list read_event)
    (d : daq_module_state_t) (now : Z) :
  0 <= b < EHMS_ARINC429_BUS_COUNT ->
  length (sources d) = Z.to_nat EHMS_ARINC429_BUS_COUNT ->
  failure_count (source_of b d) = 0 ->
  failures_only b fails = true ->
  reads_on b fails <= DAQ_MAX_CONSECUTIVE_FAILURES ->
  (src_is_active (source_of b (record_reads sources_initialized history))
     = false
   <-> exists n : nat,
         DAQ_MAX_CONSECUTIVE_FAILURES
         <= failure_count
              (source_of b
                 (record_reads sources_initialized (take n history))))
  /\ failure_count (source_of b (record_reads d fails)) = reads_on b fails
  /\ src_is_active (source_of b (record_reads d fails))
     = src_is_active (source_of b d)
       && (reads_on b fails <? DAQ_MAX_CONSECUTIVE_FAILURES)
  /\ failure_count
       (source_of b
          (record_read (record_reads sources_initialized history)
             {| ev_bus := b; ev_success := true; ev_now := now |})) = 0
  /\ src_is_active
       (source_of b
          (record_read (record_reads sources_initialized history)
             {| ev_bus := b; ev_success := true; ev_now := now |}))
     = src_is_active (source_of b (record_reads sources_initialized history)).
Proof.
  intros Hb Hlen Hzero Hfail Hle.
  split; [apply inactive_iff_reached; exact Hb|].
  destruct (failures_count_up b fails Hb d Hlen Hfail) as [Hfc Hact];
    [lia | lia |].
  rewrite Hzero in Hfc, Hact. cbn [Z.add] in Hfc, Hact.
  split; [exact Hfc|]. split.
  - rewrite Hact. unfold DAQ_MAX_CONSECUTIVE_FAILURES.
    destruct (Z.eqb_spec (reads_on b fails) 0) as [-> | _]; [|reflexivity].
    cbn. rewrite andb_true_r. reflexivity.
  - rewrite source_of_record_read;
      [|exact Hb
       |rewrite record_reads_length; apply (sources_initialized_spec b Hb)].
    cbn [ev_bus ev_success ev_now].
    assert ((wrap8 b =? b) = true) as ->.
    { apply Z.eqb_eq. unfold wrap8, EHMS_ARINC429_BUS_COUNT in *.
      apply Z.mod_small. lia. }
    unfold update_source. cbn. split; reflexivity.
Qed.

Lemma source_deactivation_witness :
  (src_is_active
     (source_of 0
        (record_reads sources_initialized
           (replicate 5 (failed_read 0) ++ [good_read 0]))) = false
   <-> exists n : nat,
         DAQ_MAX_CONSECUTIVE_FAILURES
         <= failure_count
              (source_of 0
                 (record_reads sources_initialized
                    (take n (replicate 5 (failed_read 0) ++ [good_read 0])))))
  /\ failure_count
       (source_of 0
          (record_reads sources_initialized (replicate 5 (failed_read 0))))
     = reads_on 0 (replicate 5 (failed_read 0))
  /\ src_is_active
       (source_of 0
          (record_reads sources_initialized (replicate 5 (failed_read 0))))
     = src_is_active (source_of 0 sources_initialized)
       && (reads_on 0 (replicate 5 (failed_read 0))
             <? DAQ_MAX_CONSECUTIVE_FAILURES)
  /\ failure_count
       (source_of 0
          (record_read
             (record_reads sources_initialized
                (replicate 5 (failed_read 0) ++ [good_read 0]))
             {| ev_bus := 0; ev_success := true; ev_now := 1010 |})) = 0
  /\ src_is_active
       (source_of 0
          (record_read
             (record_reads sources_initialized
                (replicate 5 (failed_read 0) ++ [good_read 0]))
             {| ev_bus := 0; ev_success := true; ev_now := 1010 |}))
     = src_is_active
         (source_of 0
            (record_reads sources_initialized
               (replicate 5 (failed_read 0) ++ [good_read 0]))).
Proof.
  apply (source_deactivation 0 (replicate 5 (failed_read 0) ++ [good_read 0])
           (replicate 5 (failed_read 0)) sources_initialized 1010).
  - vm_compute. split; [discriminate | reflexivity].
  - reflexivity.
  - reflexivity.
  - reflexivity.
  - vm_compute. discriminate.
Defined.

(** The source of bus 0 along five failing reads and one good read: active
    up to the fourth failure, inactive from the fifth on, and still
    inactive, with the counter back at 0, after the good read. *)
Example source_deactivation_trace :
  (fun n =>
     let src := source_of 0 (record_reads sources_initialized
                  (take n (replicate 5 (failed_read 0) ++ [good_read 0]))) in
     (src_is_active src, failure_count src))
    <$> [0; 1; 2; 3; 4; 5; 6]%nat
  = [(true, 0); (true, 1); (true, 2); (true, 3); (true, 4); (false, 5);
     (false, 0)].
Proof. reflexivity. Qed.

(** ** Failover to the backup bus *)

(** No row of [s_param_config] has bus 1 as its [bus_primary], so the call
    made for the backup bus reads nothing: it returns [EHMS_OK] and leaves
    the world and the module state as they were. *)
Lemma daq_read_backup_is_noop {W} (drv : drivers W) (eng : Z) (m : machine) :
  daq_read_arinc429_data drv (bus_backup (s_param_config !!! 0%nat)) eng m
  = (EHMS_OK, m).
Proof. reflexivity. Qed.

(** C2, evaluated at the failing input.  After [daq_init], every read on
    bus 0 (the primary bus of N1) fails with [EHMS_ERROR_HARDWARE] and every
    read on bus 1 (its backup) would succeed.  [daq_execute_cycle] returns
    [EHMS_OK], but no read is made on bus 1: the counters of bus 1 have not
    moved, and the N1 sample of engine 1 still has [source_bus = 0] and was
    not refreshed. *)
Theorem daq_failover_not_performed :
  let drv := test_drivers [0] 1000 test_ts in
  let m := machine_after_cycle [0] in
  (daq_execute_cycle drv (initialized_machine [0])).1 = EHMS_OK
  /\ bus_primary (s_param_config !!! Z.to_nat EHMS_PARAM_N1) = 0
  /\ bus_backup (s_param_config !!! Z.to_nat EHMS_PARAM_N1) = 1
  /\ (arinc429_read drv 0 200 []).1.1 = EHMS_ERROR_HARDWARE
  /\ (arinc429_read drv 1 200 []).1.1 = EHMS_OK
  /\ forallb (fun r => negb (r.1 =? 1)) m.1 = true
  /\ source_bus (get_param EHMS_ENGINE_1 EHMS_PARAM_N1 m.2) = 0
  /\ status (get_param EHMS_ENGINE_1 EHMS_PARAM_N1 m.2) = EHMS_PARAM_STALE
  /\ timestamp (get_param EHMS_ENGINE_1 EHMS_PARAM_N1 m.2) = timestamp_zero
  /\ total_samples (source_of 1 m.2) = 0
  /\ error_samples (source_of 1 m.2) = 0
  /\ total_samples (source_of 0 m.2) = 92
  /\ error_samples (source_of 0 m.2) = 92.
Proof. vm_compute. repeat split. Qed.

(** ** Integrity of the snapshot *)

(** The CRC-32 check value of the ASCII digits 1 to 9. *)
Example daq_calculate_crc32_check :
  daq_calculate_crc32 [49; 50; 51; 52; 53; 54; 55; 56; 57] 9 = 0xCBF43926.
Proof. reflexivity. Qed.

(** C1, evaluated at the failing input.  After [daq_init], one
    [daq_execute_cycle] in which every read succeeds returns [EHMS_OK]; the
    [crc32] stored for engine 1 is the CRC of the payload as it was before
    [sample_time] was stamped, not of the payload that is stored, and
    [daq_get_engine_snapshot] answers [EHMS_ERROR_CRC]. *)
Theorem daq_crc_stale_after_cycle :
  let drv := test_drivers [] 1000 test_ts in
  let m := machine_after_cycle [] in
  let slot := engine_data m.2 !!! Z.to_nat EHMS_ENGINE_1 in
  (daq_execute_cycle drv (initialized_machine [])).1 = EHMS_OK
  /\ is_initialized m.2 = true
  /\ sample_time slot = test_ts
  /\ crc32 slot
     = daq_calculate_crc32 (snapshot_bytes (set_sample_time slot timestamp_zero))
         (sizeof_snapshot - sizeof_uint32)
  /\ crc32 slot
     <> daq_calculate_crc32 (snapshot_bytes slot)
          (sizeof_snapshot - sizeof_uint32)
  /\ (daq_get_engine_snapshot drv EHMS_ENGINE_1 (Some snapshot_zero) m).1.1
     = EHMS_ERROR_CRC.
Proof. vm_compute. repeat split. discriminate. Qed.

End Acquisition.

(* ===================================================================== *)
(** * Further properties of the alert manager                             *)
(* ===================================================================== *)

Section AlertInvariants.
Import AlertManager AlertFacts.

(** ** Induction over the calls made since [alert_init] *)

(** The loop of one call, with the rows known to come from the table. *)
Lemma fold_process_inv snap (P : alert_state_t -> Prop) (l : list alert_threshold_t) :
  (forall s out t, t ∈ l -> P s -> P (process_threshold snap (s, out) t).1) ->
  forall s out, P s -> P (fold_left (process_threshold snap) l (s, out)).1.
Proof.
  induction l as [|t l IH]; intros Hstep s out Hs; [exact Hs|].
  cbn [fold_left].
  pose proof (Hstep s out t (list_elem_of_here _ _) Hs) as H1.
  destruct (process_threshold snap (s, out) t) as [s1 out1].
  apply IH; [|exact H1].
  intros s0 out0 t0 Hin. apply Hstep. apply list_elem_of_further, Hin.
Qed.

(** A property of the state that holds after [alert_init], that every
    creation of an alert from a table row keeps, and that the
    acknowledgements among the calls keep, holds in the state reached. *)
Lemma reached_inv_when (Q : alert_call -> Prop) (P : alert_state_t -> Prop) :
  P initial_state ->
  (forall s snap t,
      t ∈ s_thresholds ->
      status (threshold_param snap t) = EHMS_PARAM_VALID ->
      exceeded t (threshold_param snap t) = true ->
      already_active s t snap = false ->
      active_count s < EHMS_MAX_ACTIVE_ALERTS ->
      P s -> P (raise_alert s t snap)) ->
  (forall s lvl,
      Q (call_acknowledge lvl) -> P s -> P (alert_acknowledge s lvl).2) ->
  forall cs, Forall Q cs -> P (reached cs).
Proof.
  intros Hinit Hraise Hack cs. unfold reached, alert_run.
  generalize initial_state Hinit.
  induction cs as [|c cs IH]; intros s Hs HQ; [exact Hs|].
  apply Forall_cons in HQ as [Hc HQ].
  cbn [fold_left]. apply IH; [|exact HQ].
  destruct c as [[snap|] | lvl]; cbn [alert_step].
  - rewrite process_snapshot_state. apply fold_process_inv; [|exact Hs].
    intros s0 out t Hin H0.
    destruct (process_threshold_cases snap s0 out t)
      as [-> | (Hv & He & Hn & Hlt & ->)]; [exact H0|].
    cbn [fst]. apply Hraise; assumption.
  - exact Hs.
  - apply Hack; assumption.
Qed.

Lemma reached_inv (P : alert_state_t -> Prop) :
  P initial_state ->
  (forall s snap t,
      t ∈ s_thresholds ->
      status (threshold_param snap t) = EHMS_PARAM_VALID ->
      exceeded t (threshold_param snap t) = true ->
      already_active s t snap = false ->
      active_count s < EHMS_MAX_ACTIVE_ALERTS ->
      P s -> P (raise_alert s t snap)) ->
  (forall s lvl, P s -> P (alert_acknowledge s lvl).2) ->
  forall cs, P (reached cs).
Proof.
  intros Hinit Hraise Hack cs.
  apply (reached_inv_when (fun _ => True)); auto.
  apply Forall_forall. auto.
Qed.

Lemma alert_acknowledge_slots s lvl :
  alerts (alert_acknowledge s lvl).2 = alerts s
  /\ active_count (alert_acknowledge s lvl).2 = active_count s
  /\ next_alert_id (alert_acknowledge s lvl).2 = next_alert_id s.
Proof. destruct lvl; cbn; repeat split. Qed.

Lemma reached_wf cs : alert_state_wf (reached cs).
Proof.
  apply reached_inv.
  - split; [reflexivity | vm_compute; split; discriminate].
  - intros s snap t _ _ _ _ Hlt Hwf. apply raise_alert_wf; assumption.
  - intros s lvl Hwf.
    destruct (alert_acknowledge_slots s lvl) as (Ha & Hc & _).
    unfold alert_state_wf. rewrite Ha, Hc. exact Hwf.
Qed.

Lemma raise_alert_slot s thresh snap :
  alert_state_wf s -> active_count s < EHMS_MAX_ACTIVE_ALERTS ->
  alerts (raise_alert s thresh snap) !! Z.to_nat (active_count s)
  = Some (new_alert s thresh snap (alerts s !!! Z.to_nat (active_count s))).
Proof.
  unfold alert_state_wf, EHMS_MAX_ACTIVE_ALERTS. intros [Hlen Hac] Hlt.
  unfold raise_alert. cbn [alerts].
  apply list_lookup_insert_eq. lia.
Qed.

Lemma raise_alert_other s thresh snap (i : nat) :
  i <> Z.to_nat (active_count s) ->
  alerts (raise_alert s thresh snap) !! i = alerts s !! i.
Proof.
  intros Hne. unfold raise_alert. cbn [alerts].
  apply list_lookup_insert_ne. lia.
Qed.

Lemma raise_alert_count s thresh snap :
  alert_state_wf s -> active_count s < EHMS_MAX_ACTIVE_ALERTS ->
  active_count (raise_alert s thresh snap) = active_count s + 1.
Proof.
  unfold alert_state_wf, EHMS_MAX_ACTIVE_ALERTS. intros [_ Hac] Hlt.
  unfold raise_alert. cbn [active_count]. apply wrap32_small. lia.
Qed.

(** ** Alert identifiers *)

Lemma reached_ids_sequential cs : ids_sequential (reached cs).
Proof.
  apply reached_inv.
  - split; [split; [reflexivity | vm_compute; split; discriminate]|].
    split; [reflexivity|]. intros i a Hi. vm_compute in Hi.
    destruct i; discriminate.
  - intros s snap t _ _ _ _ Hlt (Hwf & Hnext & Hids).
    split; [apply raise_alert_wf; assumption|].
    rewrite raise_alert_count by assumption.
    pose proof Hwf as [_ Hac]. unfold EHMS_MAX_ACTIVE_ALERTS in *.
    split.
    + unfold raise_alert. cbn [next_alert_id]. rewrite Hnext.
      rewrite wrap32_small; lia.
    + intros i a Hi Ha.
      destruct (decide (i = Z.to_nat (active_count s))) as [-> | Hne].
      * rewrite raise_alert_slot in Ha by assumption.
        injection Ha as <-. cbn [new_alert alert_id]. lia.
      * rewrite raise_alert_other in Ha by exact Hne.
        apply Hids; [lia | exact Ha].
  - intros s lvl (Hwf & Hnext & Hids).
    destruct (alert_acknowledge_slots s lvl) as (Ha & Hc & Hn).
    unfold ids_sequential, alert_state_wf. rewrite Ha, Hc, Hn. auto.
Qed.

(** X1.  In every state reached from [alert_init], the alert in slot [i]
    of the active set has identifier [i + 1], and [next_alert_id] is
    [active_count + 1]: identifiers start at 1, are handed out in slot
    order without gaps, and no two active alerts share one. *)
Theorem alert_ids_sequential (cs : list alert_call) (i j : nat)
    (a b : ehms_alert_t) :
  Z.of_nat i < active_count (reached cs) ->
  Z.of_nat j < active_count (reached cs) ->
  alerts (reached cs) !! i = Some a ->
  alerts (reached cs) !! j = Some b ->
  alert_id a = Z.of_nat i + 1
  /\ next_alert_id (reached cs) = active_count (reached cs) + 1
  /\ (alert_id a = alert_id b -> i = j)
  /\ ((i < j)%nat -> alert_id a < alert_id b).
Proof.
  intros Hi Hj Ha Hb.
  destruct (reached_ids_sequential cs) as (_ & Hnext & Hids).
  rewrite (Hids i a Hi Ha), (Hids j b Hj Hb).
  repeat split; [exact Hnext | lia | lia].
Qed.

Lemma alert_ids_sequential_witness :
  alert_id caution_alert = Z.of_nat 0 + 1
  /\ next_alert_id (reached [call_process (Some (overlimit_snapshot 1))])
     = active_count (reached [call_process (Some (overlimit_snapshot 1))]) + 1
  /\ (alert_id caution_alert
      = alert_id {| alert_id := 2; level := EHMS_ALERT_WARNING;
                    alert_engine_id := 1; alert_param_id := EHMS_PARAM_EGT;
                    onset_time := timestamp_zero; clear_time := timestamp_zero;
                    is_active := true; is_latched := true;
                    is_inhibited := false; message := "ENG 2 EGT OVERLIMIT";
                    ecam_code := 0x1002 |} -> 0%nat = 1%nat)
  /\ ((0 < 1)%nat ->
      alert_id caution_alert
      < alert_id {| alert_id := 2; level := EHMS_ALERT_WARNING;
                    alert_engine_id := 1; alert_param_id := EHMS_PARAM_EGT;
                    onset_time := timestamp_zero; clear_time := timestamp_zero;
                    is_active := true; is_latched := true;
                    is_inhibited := false; message := "ENG 2 EGT OVERLIMIT";
                    ecam_code := 0x1002 |}).
Proof.
  apply (alert_ids_sequential [call_process (Some (overlimit_snapshot 1))]
           0%nat 1%nat); vm_compute; reflexivity.
Defined.

(** ** Alerts are never removed *)

Lemma alert_step_keeps s c : keeps_alerts s (alert_step s c).
Proof.
  destruct c as [[snap|] | lvl]; cbn [alert_step].
  - rewrite process_snapshot_state. apply fold_process_keeps.
  - cbn. split; [lia | reflexivity].
  - destruct (alert_acknowledge_slots s lvl) as (Ha & Hc & _).
    unfold keeps_alerts. rewrite Ha, Hc. split; [lia | reflexivity].
Qed.

Lemma alert_run_keeps cs : forall s, keeps_alerts s (alert_run s cs).
Proof.
  induction cs as [|c cs IH]; intros s; [split; [cbn; lia | reflexivity]|].
  cbn [alert_run fold_left]. fold (alert_run (alert_step s c) cs).
  destruct (alert_step_keeps s c) as [Hle1 Hk1].
  destruct (IH (alert_step s c)) as [Hle2 Hk2].
  split; [lia|]. intros i Hi. rewrite Hk2 by lia. apply Hk1, Hi.
Qed.

Lemma reached_app cs1 cs2 : reached (cs1 ++ cs2) = alert_run (reached cs1) cs2.
Proof. unfold reached, alert_run. apply fold_left_app. Qed.

(** X2.  Whatever calls follow, processing or acknowledgement, an alert
    that is in the active set stays in its slot with all its fields, and
    [active_count] only grows, up to 32. *)
Theorem alerts_never_removed (cs1 cs2 : list alert_call) (i : nat) :
  Z.of_nat i < active_count (reached cs1) ->
  alerts (reached (cs1 ++ cs2)) !! i = alerts (reached cs1) !! i
  /\ active_count (reached cs1) <= active_count (reached (cs1 ++ cs2))
     <= EHMS_MAX_ACTIVE_ALERTS.
Proof.
  intros Hi. pose proof (reached_wf (cs1 ++ cs2)) as [_ Hac].
  rewrite reached_app in *.
  destruct (alert_run_keeps cs2 (reached cs1)) as [Hle Hk].
  split; [apply Hk, Hi | lia].
Qed.

Lemma alerts_never_removed_witness :
  alerts (reached ([call_process (Some (egt_snapshot 1 950))]
                   ++ [call_process (Some (egt_snapshot 1 900));
                       call_acknowledge EHMS_ALERT_CAUTION;
                       call_process (Some (overlimit_snapshot 0))])) !! 0%nat
  = alerts (reached [call_process (Some (egt_snapshot 1 950))]) !! 0%nat
  /\ active_count (reached [call_process (Some (egt_snapshot 1 950))])
     <= active_count
          (reached ([call_process (Some (egt_snapshot 1 950))]
                    ++ [call_process (Some (egt_snapshot 1 900));
                        call_acknowledge EHMS_ALERT_CAUTION;
                        call_process (Some (overlimit_snapshot 0))]))
     <= EHMS_MAX_ACTIVE_ALERTS.
Proof.
  apply (alerts_never_removed [call_process (Some (egt_snapshot 1 950))]
           [call_process (Some (egt_snapshot 1 900));
            call_acknowledge EHMS_ALERT_CAUTION;
            call_process (Some (overlimit_snapshot 0))] 0%nat).
  vm_compute. reflexivity.
Defined.

(** ** The highest level *)

Lemma max_level_snoc l a :
  max_level (l ++ [a]) = Z.max (max_level l) (alert_level_val (level a)).
Proof.
  unfold max_level. induction l as [|b l IH]; cbn [foldr app].
  - pose proof (alert_level_val_range (level a)). lia.
  - fold (max_level (l ++ [a])) in *. fold (max_level l) in *.
    unfold max_level in IH |- *. rewrite IH. lia.
Qed.

Lemma reached_highest_is_max cs : highest_is_max (reached cs).
Proof.
  apply reached_inv.
  - split; [split; [reflexivity | vm_compute; split; discriminate]|].
    reflexivity.
  - intros s snap t _ _ _ _ Hlt [Hwf Hmax].
    split; [apply raise_alert_wf; assumption|].
    rewrite raise_alert_active, max_level_snoc by assumption.
    rewrite <- Hmax. unfold raise_alert. cbn [highest_level new_alert level].
    destruct (Z.gtb_spec (alert_level_val (thr_level t))
                (alert_level_val (highest_level s))); lia.
  - intros s lvl [Hwf Hmax].
    destruct (alert_acknowledge_slots s lvl) as (Ha & Hc & _).
    unfold highest_is_max, alert_state_wf, active_alerts.
    rewrite Ha, Hc. split; [exact Hwf|].
    destruct lvl; exact Hmax.
Qed.

(** X3.  In every state reached from [alert_init],
    [alert_get_highest_level] is the greatest level among the active
    alerts, and [EHMS_ALERT_NONE] when there is none; acknowledging does
    not lower it. *)
Theorem highest_level_is_max (cs : list alert_call) :
  alert_level_val (alert_get_highest_level (reached cs))
  = max_level (active_alerts (reached cs)).
Proof. apply reached_highest_is_max. Qed.

(** ** The master indicators *)

Lemma existsb_snoc {A} (f : A -> bool) l a :
  existsb f (l ++ [a]) = existsb f l || f a.
Proof. rewrite existsb_app. cbn. rewrite orb_false_r. reflexivity. Qed.

Lemma reached_masters_sound cs : masters_sound (reached cs).
Proof.
  apply reached_inv.
  - split; [split; [reflexivity | vm_compute; split; discriminate]|].
    split; reflexivity.
  - intros s snap t _ _ _ _ Hlt (Hwf & Hw & Hc).
    split; [apply raise_alert_wf; assumption|].
    rewrite raise_alert_active, !existsb_snoc by assumption.
    set (ew := existsb is_warning_alert (active_alerts s)) in *.
    set (ec := existsb is_caution_alert (active_alerts s)) in *.
    unfold raise_alert, is_warning_alert, is_caution_alert.
    cbn [master_warning master_caution new_alert level].
    destruct (master_warning s), (master_caution s), (thr_level t), ew, ec;
      cbn in Hw, Hc |- *; try discriminate; auto.
  - intros s lvl (Hwf & Hw & Hc).
    destruct (alert_acknowledge_slots s lvl) as (Ha & Hn & _).
    unfold masters_sound, alert_state_wf, active_alerts.
    rewrite Ha, Hn. split; [exact Hwf|].
    destruct lvl; cbn; auto.
Qed.

(** X4.  In every state reached from [alert_init], a master indicator that
    is set is backed by an alert: master-warning implies that a Warning
    alert is in the active set, master-caution that a Caution alert is. *)
Theorem master_indicators_sound (cs : list alert_call) :
  implb (alert_is_master_warning (reached cs))
        (existsb is_warning_alert (active_alerts (reached cs))) = true
  /\ implb (alert_is_master_caution (reached cs))
           (existsb is_caution_alert (active_alerts (reached cs))) = true.
Proof. apply reached_masters_sound. Qed.

Lemma no_acknowledge_Forall cs :
  no_acknowledge cs = true ->
  Forall (fun c => match c with call_process _ => True | _ => False end) cs.
Proof.
  unfold no_acknowledge. intros H. apply Forall_forall. intros c Hin.
  apply list_elem_of_In in Hin.
  rewrite forallb_forall in H. specialize (H c Hin).
  destruct c; [exact I | discriminate].
Qed.

(** X5.  As long as no acknowledgement has been made, the master
    indicators are exact: master-warning is set if and only if a Warning
    alert is active, master-caution if and only if a Caution alert is. *)
Theorem master_indicators_exact (cs : list alert_call) :
  no_acknowledge cs = true ->
  alert_is_master_warning (reached cs)
  = existsb is_warning_alert (active_alerts (reached cs))
  /\ alert_is_master_caution (reached cs)
     = existsb is_caution_alert (active_alerts (reached cs)).
Proof.
  intros Hno. apply no_acknowledge_Forall in Hno.
  enough (masters_exact (reached cs)) as (_ & Hw & Hc) by (split; assumption).
  revert cs Hno. apply reached_inv_when.
  - split; [split; [reflexivity | vm_compute; split; discriminate]|].
    split; reflexivity.
  - intros s snap t _ _ _ _ Hlt (Hwf & Hw & Hc).
    split; [apply raise_alert_wf; assumption|].
    rewrite raise_alert_active, !existsb_snoc by assumption.
    set (ew := existsb is_warning_alert (active_alerts s)) in *.
    set (ec := existsb is_caution_alert (active_alerts s)) in *.
    unfold raise_alert, is_warning_alert, is_caution_alert.
    cbn [master_warning master_caution new_alert level].
    rewrite Hw, Hc.
    destruct (thr_level t), ew, ec; cbn; split; reflexivity.
  - intros s lvl [].
Qed.

Lemma master_indicators_exact_witness :
  alert_is_master_warning
    (reached [call_process (Some (egt_snapshot 1 950));
              call_process (Some (oil_snapshot 10))])
  = existsb is_warning_alert
      (active_alerts
         (reached [call_process (Some (egt_snapshot 1 950));
                   call_process (Some (oil_snapshot 10))]))
  /\ alert_is_master_caution
       (reached [call_process (Some (egt_snapshot 1 950));
                 call_process (Some (oil_snapshot 10))])
     = existsb is_caution_alert
         (active_alerts
            (reached [call_process (Some (egt_snapshot 1 950));
                      call_process (Some (oil_snapshot 10))])).
Proof.
  apply (master_indicators_exact
           [call_process (Some (egt_snapshot 1 950));
            call_process (Some (oil_snapshot 10))]).
  reflexivity.
Defined.

(** ** What an active alert carries *)





(** ** What a call publishes *)

Lemma publications_cons a l :
  publications (a :: l)
  = [eicas_post_message a; recorder_log_alert a] ++ publications l.
Proof. reflexivity. Qed.

Lemma fold_process_out snap l :
  forall s out,
    alert_state_wf s ->
    (fold_left (process_threshold snap) l (s, out)).2
    = out ++ publications
               (drop (Z.to_nat (active_count s))
                  (active_alerts
                     (fold_left (process_threshold snap) l (s, out)).1)).
Proof.
  induction l as [|t l IH]; intros s out Hwf.
  - cbn [fold_left fst snd]. unfold active_alerts.
    rewrite drop_ge by (rewrite length_take; lia).
    cbn. rewrite app_nil_r. reflexivity.
  - cbn [fold_left].
    destruct (process_threshold_cases snap s out t)
      as [-> | (Hv & _ & _ & Hlt & ->)]; [apply IH, Hwf|].
    set (a := new_alert s t snap (alerts s !!! Z.to_nat (active_count s))).
    pose proof (raise_alert_wf s t snap Hwf Hlt) as Hwf1.
    pose proof (raise_alert_count s t snap Hwf Hlt) as Hc1.
    rewrite IH by exact Hwf1.
    destruct (fold_process_grows snap l (raise_alert s t snap)
                (out ++ [eicas_post_message a; recorder_log_alert a]) Hwf1)
      as (Hwf' & Hle & Hkeep & _).
    set (s' := (fold_left (process_threshold snap) l
                  (raise_alert s t snap,
                   out ++ [eicas_post_message a; recorder_log_alert a])).1)
      in *.
    destruct Hwf as [Hlen Hac]. unfold EHMS_MAX_ACTIVE_ALERTS in *.
    assert (active_alerts s' !! Z.to_nat (active_count s) = Some a) as Hslot.
    { unfold active_alerts. rewrite lookup_take_lt by lia.
      rewrite Hkeep by lia.
      apply raise_alert_slot; [split; assumption | exact Hlt]. }
    rewrite (drop_S _ _ _ Hslot), publications_cons.
    rewrite Hc1.
    replace (Z.to_nat (active_count s + 1))
      with (S (Z.to_nat (active_count s))) by lia.
    rewrite <- !app_assoc. reflexivity.
Qed.

(** X7.  A call publishes exactly the alerts it allocates: the port output
    is, for each slot added to the active set and in slot order, one
    [eicas_post_message] followed by one [recorder_log_alert] of that
    alert, and nothing else. *)
Theorem publications_match_new_alerts (cs : list alert_call)
    (snap : ehms_engine_snapshot_t) :
  (alert_process_snapshot (reached cs) (Some snap)).2
  = publications
      (drop (Z.to_nat (active_count (reached cs)))
         (active_alerts (alert_process_snapshot (reached cs) (Some snap)).1.2)).
Proof.
  pose proof (fold_process_out snap s_thresholds (reached cs) []
                (reached_wf cs)) as H.
  unfold alert_process_snapshot.
  destruct (fold_left _ _ _) as [s' out]. exact H.
Qed.

(** ** Processing the same snapshot again *)

Lemma fold_process_settled snap l s out :
  (forall t, t ∈ l ->
     status (threshold_param snap t) = EHMS_PARAM_VALID ->
     exceeded t (threshold_param snap t) = true ->
     already_active s t snap = true
     \/ active_count s = EHMS_MAX_ACTIVE_ALERTS) ->
  fold_left (process_threshold snap) l (s, out) = (s, out).
Proof.
  induction l as [|t l IH]; intros Hall; [reflexivity|].
  cbn [fold_left].
  destruct (process_threshold_cases snap s out t)
    as [-> | (Hv & He & Hn & Hlt & _)].
  - apply IH. intros t0 Hin. apply Hall, list_elem_of_further, Hin.
  - destruct (Hall t (list_elem_of_here _ _) Hv He) as [Hact | Hfull];
      [congruence | lia].
Qed.

(** X8.  Processing is idempotent: when the snapshot that has just been
    processed is processed again, the call returns [EHMS_OK], allocates no
    alert, uses no new identifier, publishes nothing and leaves the state
    as it is. *)
Theorem process_snapshot_idempotent (cs : list alert_call)
    (snap : ehms_engine_snapshot_t) :
  alert_process_snapshot
    (alert_process_snapshot (reached cs) (Some snap)).1.2 (Some snap)
  = (EHMS_OK, (alert_process_snapshot (reached cs) (Some snap)).1.2, []).
Proof.
  rewrite process_snapshot_state.
  set (s1 := (fold_left (process_threshold snap) s_thresholds
                (reached cs, [])).1).
  unfold alert_process_snapshot.
  rewrite fold_process_settled; [reflexivity|].
  intros t Hin Hv He.
  exact (fold_process_allocates snap t s_thresholds Hin Hv He (reached cs) []
           (reached_wf cs)).
Qed.

(** ** Edge values of the comparison *)

(** X9.  For every row of the threshold table the comparison is inclusive:
    a Valid value equal to the threshold meets it, for high and for low
    limits.  A Valid value that is NaN meets no threshold: the row leaves
    state and port output unchanged. *)
Theorem exceedance_edges (k : nat) (thresh : alert_threshold_t)
    (s : alert_state_t) (out : list port_event)
    (snap : ehms_engine_snapshot_t) :
  s_thresholds !! k = Some thresh ->
  exceeded thresh (sample (threshold thresh)) = true
  /\ exceeded thresh (sample S754_nan) = false
  /\ process_threshold (uniform_snapshot snap (sample S754_nan)) (s, out)
       thresh = (s, out).
Proof.
  intros Hk.
  do 12 (destruct k as [|k];
         [injection Hk as <-; repeat split; vm_compute; reflexivity|]).
  discriminate Hk.
Qed.

Lemma exceedance_edges_witness :
  exceeded oil_warning_row (sample (threshold oil_warning_row)) = true
  /\ exceeded oil_warning_row (sample S754_nan) = false
  /\ process_threshold
       (uniform_snapshot (nominal_snapshot 0) (sample S754_nan))
       (caution_state, []) oil_warning_row = (caution_state, []).
Proof.
  apply (exceedance_edges 3%nat oil_warning_row caution_state []
           (nominal_snapshot 0)).
  reflexivity.
Defined.

End AlertInvariants.

(* ===================================================================== *)
(** * Further properties of the acquisition module                        *)
(* ===================================================================== *)

Section AcquisitionFacts.
Import DataAcquisition DaqFacts.

(** ** CRC-32 *)

Lemma lxor_range a b n :
  0 <= a < 2 ^ n -> 0 <= b < 2 ^ n -> 0 <= Z.lxor a b < 2 ^ n.
Proof.
  intros Ha Hb. split; [apply Z.lxor_nonneg; lia|].
  destruct (Z.eq_dec (Z.lxor a b) 0) as [-> | Hne]; [lia|].
  assert (0 <= Z.lxor a b) as Hnn by (apply Z.lxor_nonneg; lia).
  assert (0 < n) as Hn.
  { destruct (Z_lt_le_dec 0 n) as [H | H]; [exact H|]. exfalso.
    assert (2 ^ n <= 1) as Hp.
    { destruct (Z.eq_dec n 0) as [-> | Hn0]; [cbn; lia|].
      rewrite Z.pow_neg_r by lia. lia. }
    assert (a = 0) by lia. assert (b = 0) by lia. subst. apply Hne.
    reflexivity. }
  apply Z.log2_lt_pow2; [lia|].
  pose proof (Z.log2_lxor a b ltac:(lia) ltac:(lia)) as Hlog.
  assert (Z.log2 a < n) as Hla.
  { destruct (Z.eq_dec a 0) as [-> | H0]; [cbn; lia|].
    apply Z.log2_lt_pow2; lia. }
  assert (Z.log2 b < n) as Hlb.
  { destruct (Z.eq_dec b 0) as [-> | H0]; [cbn; lia|].
    apply Z.log2_lt_pow2; lia. }
  lia.
Qed.

Lemma crc32_bit_range crc :
  0 <= crc < 2 ^ 32 -> 0 <= crc32_bit crc < 2 ^ 32.
Proof.
  intros Hc. unfold crc32_bit.
  assert (0 <= Z.shiftr crc 1 < 2 ^ 31) as Hs.
  { rewrite Z.shiftr_div_pow2 by lia. change (2 ^ 1) with 2.
    split; [apply Z.div_pos; lia|].
    apply Z.div_lt_upper_bound; lia. }
  destruct (Z.testbit crc 0); [|lia].
  apply lxor_range; [lia|]. unfold DAQ_CRC32_POLYNOMIAL. lia.
Qed.

Lemma crc32_byte_range crc byte :
  0 <= crc < 2 ^ 32 -> 0 <= byte < 2 ^ 8 -> 0 <= crc32_byte crc byte < 2 ^ 32.
Proof.
  intros Hc Hb. unfold crc32_byte.
  assert (0 <= Z.lxor crc byte < 2 ^ 32) as H0
    by (apply lxor_range; lia).
  revert H0. generalize (Z.lxor crc byte). intros x Hx.
  cbn [Nat.iter nat_rect].
  do 8 apply crc32_bit_range. exact Hx.
Qed.

Lemma is_bytes_take data n : is_bytes data = true -> is_bytes (take n data) = true.
Proof.
  unfold is_bytes. rewrite !forallb_forall. intros H x Hin. apply H.
  apply list_elem_of_In in Hin. apply list_elem_of_In.
  apply elem_of_take in Hin as (i & Hi & _).
  apply (list_elem_of_lookup_2 _ i). exact Hi.
Qed.

(** X10.  Over bytes, [daq_calculate_crc32] always returns a 32-bit value,
    whatever the data and the length; for a length of zero it returns 0. *)
Theorem daq_calculate_crc32_range (data : list Z) (length : Z) :
  is_bytes data = true ->
  0 <= daq_calculate_crc32 data length < 2 ^ 32
  /\ daq_calculate_crc32 data 0 = 0.
Proof.
  intros Hbytes. split; [|reflexivity]. unfold daq_calculate_crc32.
  apply lxor_range; [|lia].
  apply (is_bytes_take _ (Z.to_nat length)) in Hbytes. revert Hbytes.
  generalize (take (Z.to_nat length) data). intros l.
  assert (0 <= 4294967295 < 2 ^ 32) as H0 by lia. revert H0.
  generalize 4294967295. induction l as [|b l IH]; intros crc Hc Hb;
    [exact Hc|].
  cbn [fold_left]. unfold is_bytes in Hb. cbn [forallb] in Hb.
  apply andb_true_iff in Hb as [Hb0 Hb].
  apply IH; [|exact Hb]. apply crc32_byte_range; [exact Hc|]. lia.
Qed.

Lemma daq_calculate_crc32_range_witness :
  0 <= daq_calculate_crc32 [49; 50; 51; 52; 53; 54; 55; 56; 57] 9 < 2 ^ 32
  /\ daq_calculate_crc32 [49; 50; 51; 52; 53; 54; 55; 56; 57] 0 = 0.
Proof.
  apply (daq_calculate_crc32_range [49; 50; 51; 52; 53; 54; 55; 56; 57] 9).
  reflexivity.
Defined.

(** ** The integrity check of the reader *)

Lemma le_bytes_length n z : length (le_bytes n z) = n.
Proof. revert z. induction n as [|n IH]; intros z; cbn; [|rewrite IH]; reflexivity. Qed.

Lemma parameter_bytes_length p : length (parameter_bytes p) = 28%nat.
Proof.
  unfold parameter_bytes, timestamp_bytes.
  rewrite !length_app, !le_bytes_length. reflexivity.
Qed.

Lemma parameters_bytes_length ps :
  length (concat (parameter_bytes <$> ps)) = (28 * length ps)%nat.
Proof.
  induction ps as [|p ps IH]; [reflexivity|].
  cbn [fmap list_fmap concat]. rewrite length_app, parameter_bytes_length.
  fold (fmap parameter_bytes ps). rewrite IH. cbn [length]. lia.
Qed.

(** The first [sizeof - 4] bytes of the image do not depend on the
    [crc32] member. *)
Lemma snapshot_payload_set_crc32 slot c :
  length (parameters slot) = Z.to_nat EHMS_PARAM_COUNT ->
  take (Z.to_nat (sizeof_snapshot - sizeof_uint32))
       (snapshot_bytes (set_crc32 slot c))
  = take (Z.to_nat (sizeof_snapshot - sizeof_uint32)) (snapshot_bytes slot).
Proof.
  intros Hlen. unfold snapshot_bytes, set_crc32.
  cbn [engine_id sample_time flight_phase parameters health_status crc32].
  rewrite !app_assoc.
  rewrite !(take_app_length' _ (le_bytes 4 _)); [reflexivity | |].
  - rewrite !length_app, parameters_bytes_length, !le_bytes_length, Hlen.
    unfold timestamp_bytes. rewrite !length_app, !le_bytes_length.
    reflexivity.
  - rewrite !length_app, parameters_bytes_length, !le_bytes_length, Hlen.
    unfold timestamp_bytes. rewrite !length_app, !le_bytes_length.
    reflexivity.
Qed.

Lemma payload_crc_set_crc32 slot c :
  length (parameters slot) = Z.to_nat EHMS_PARAM_COUNT ->
  payload_crc (set_crc32 slot c) = payload_crc slot.
Proof.
  intros Hlen. unfold payload_crc, daq_calculate_crc32.
  rewrite snapshot_payload_set_crc32 by exact Hlen. reflexivity.
Qed.

(** X11.  The check of [daq_get_engine_snapshot] depends on the payload
    only, not on what the [crc32] member held when the CRC was computed:
    for an initialised module and an engine in range, a slot whose [crc32]
    member is [c] is handed out, with [EHMS_OK] and without any other
    effect, if [c] is the CRC of the slot's payload; for any other [c] the
    call returns [EHMS_ERROR_CRC], reports the mismatch and leaves the
    caller's buffer as it was.  So a slot stamped with the CRC of its own
    payload always passes. *)
Theorem crc_stamp_then_read {W} (drv : drivers W) (w : W)
    (d : daq_module_state_t) (eng c : Z)
    (slot buf : ehms_engine_snapshot_t) :
  is_initialized d = true ->
  0 <= eng < EHMS_ENGINE_COUNT ->
  length (engine_data d) = Z.to_nat EHMS_MAX_ENGINES ->
  length (parameters slot) = Z.to_nat EHMS_PARAM_COUNT ->
  daq_get_engine_snapshot drv eng (Some buf)
    (w, store_slot eng (set_crc32 slot c) d)
  = (if c =? payload_crc slot
     then ((EHMS_OK, Some (set_crc32 slot c)),
           (w, store_slot eng (set_crc32 slot c) d))
     else ((EHMS_ERROR_CRC, Some buf),
           (error_report drv ERR_CODE_CRC_MISMATCH eng w,
            store_slot eng (set_crc32 slot c) d)))
  /\ daq_get_engine_snapshot drv eng (Some buf)
       (w, store_slot eng (set_crc32 slot (payload_crc slot)) d)
     = ((EHMS_OK, Some (set_crc32 slot (payload_crc slot))),
        (w, store_slot eng (set_crc32 slot (payload_crc slot)) d)).
Proof.
  unfold EHMS_ENGINE_COUNT, EHMS_MAX_ENGINES. intros Hinit Heng Hlen Hps.
  assert (forall c0,
    daq_get_engine_snapshot drv eng (Some buf)
      (w, store_slot eng (set_crc32 slot c0) d)
    = (if c0 =? payload_crc slot
       then ((EHMS_OK, Some (set_crc32 slot c0)),
             (w, store_slot eng (set_crc32 slot c0) d))
       else ((EHMS_ERROR_CRC, Some buf),
             (error_report drv ERR_CODE_CRC_MISMATCH eng w,
              store_slot eng (set_crc32 slot c0) d)))) as Hread.
  { intros c0. unfold daq_get_engine_snapshot, EHMS_ENGINE_COUNT.
    destruct (Z.geb_spec eng 4) as [Hge | _]; [lia|].
    unfold bind, get_state, ret, ext_.
    cbn [is_initialized store_slot set_engine_data engine_data].
    rewrite Hinit. cbn [negb].
    rewrite list_lookup_total_insert_eq by lia.
    fold (payload_crc (set_crc32 slot c0)).
    rewrite payload_crc_set_crc32 by exact Hps.
    cbn [crc32 set_crc32]. rewrite (Z.eqb_sym (payload_crc slot) c0).
    destruct (c0 =? payload_crc slot); reflexivity. }
  split; [apply Hread|].
  rewrite Hread, Z.eqb_refl. reflexivity.
Qed.

Lemma crc_stamp_then_read_witness :
  daq_get_engine_snapshot (test_drivers [] 1000 test_ts) 0
    (Some snapshot_zero)
    ([], store_slot 0 (set_crc32 cycled_slot 7) ready_state)
  = (if 7 =? payload_crc cycled_slot
     then ((EHMS_OK, Some (set_crc32 cycled_slot 7)),
           ([], store_slot 0 (set_crc32 cycled_slot 7) ready_state))
     else ((EHMS_ERROR_CRC, Some snapshot_zero),
           (error_report (test_drivers [] 1000 test_ts)
              ERR_CODE_CRC_MISMATCH 0 [],
            store_slot 0 (set_crc32 cycled_slot 7) ready_state)))
  /\ daq_get_engine_snapshot (test_drivers [] 1000 test_ts) 0
       (Some snapshot_zero)
       ([], store_slot 0 (set_crc32 cycled_slot (payload_crc cycled_slot))
              ready_state)
     = ((EHMS_OK, Some (set_crc32 cycled_slot (payload_crc cycled_slot))),
        ([], store_slot 0 (set_crc32 cycled_slot (payload_crc cycled_slot))
               ready_state)).
Proof.
  apply (crc_stamp_then_read (test_drivers [] 1000 test_ts) [] ready_state
           0 7 cycled_slot snapshot_zero).
  - reflexivity.
  - vm_compute. split; [discriminate | reflexivity].
  - reflexivity.
  - vm_compute. reflexivity.
Defined.

(** ** The per-bus counters *)

Lemma filter_length_bound {A} (f : A -> bool) l :
  (length (List.filter f l) <= length l)%nat.
Proof.
  induction l as [|x l IH]; cbn; [lia|]. destruct (f x); cbn; lia.
Qed.

Lemma reads_on_snoc b evs ev :
  reads_on b (evs ++ [ev])
  = reads_on b evs + (if wrap8 (ev_bus ev) =? b then 1 else 0).
Proof.
  unfold reads_on. rewrite List.filter_app, length_app. cbn [List.filter].
  destruct (_ =? _); cbn [length]; lia.
Qed.

Lemma failed_on_snoc b evs ev :
  failed_on b (evs ++ [ev])
  = failed_on b evs
    + (if (wrap8 (ev_bus ev) =? b) && negb (ev_success ev) then 1 else 0).
Proof.
  unfold failed_on. rewrite List.filter_app, length_app. cbn [List.filter].
  destruct (_ && _); cbn [length]; lia.
Qed.

(** X12.  The statistics are exact counts: after any history of fewer than
    2^32 reads since [daq_init], [total_samples] of a bus is the number of
    reads made on it and [error_samples] the number of those that failed;
    reads on other buses do not move them. *)
Theorem source_counters_exact (b : Z) (evs : list read_event) :
  0 <= b < EHMS_ARINC429_BUS_COUNT ->
  Z.of_nat (length evs) < 2 ^ 32 ->
  total_samples (source_of b (record_reads sources_initialized evs))
  = reads_on b evs
  /\ error_samples (source_of b (record_reads sources_initialized evs))
     = failed_on b evs
  /\ 0 <= failed_on b evs <= reads_on b evs.
Proof.
  intros Hb. induction evs as [|ev evs IH] using rev_ind; intros Hlen.
  - unfold EHMS_ARINC429_BUS_COUNT in Hb.
    assert (b = 0 \/ b = 1 \/ b = 2 \/ b = 3) as [-> | [-> | [-> | ->]]]
      by lia; vm_compute; repeat split; discriminate.
  - rewrite length_app in Hlen. cbn [length] in Hlen.
    destruct IH as (Htot & Herr & Hle); [lia|].
    assert (reads_on b evs <= Z.of_nat (length evs)) as Hbound.
    { unfold reads_on. pose proof (filter_length_bound
        (fun ev => wrap8 (ev_bus ev) =? b) evs). lia. }
    rewrite record_reads_snoc, reads_on_snoc, failed_on_snoc.
    rewrite source_of_record_read;
      [|exact Hb
       |rewrite record_reads_length; apply (sources_initialized_spec b Hb)].
    destruct (wrap8 (ev_bus ev) =? b); cbn [andb];
      [|rewrite Htot, Herr; lia].
    unfold update_source.
    destruct (ev_success ev); cbn [negb total_samples error_samples];
      rewrite ?Htot, ?Herr, ?wrap32_small; lia.
Qed.

Lemma source_counters_exact_witness :
  total_samples
    (source_of 0
       (record_reads sources_initialized
          [failed_read 0; good_read 1; good_read 0; failed_read 0]))
  = reads_on 0 [failed_read 0; good_read 1; good_read 0; failed_read 0]
  /\ error_samples
       (source_of 0
          (record_reads sources_initialized
             [failed_read 0; good_read 1; good_read 0; failed_read 0]))
     = failed_on 0 [failed_read 0; good_read 1; good_read 0; failed_read 0]
  /\ 0 <= failed_on 0 [failed_read 0; good_read 1; good_read 0; failed_read 0]
       <= reads_on 0 [failed_read 0; good_read 1; good_read 0; failed_read 0].
Proof.
  apply (source_counters_exact 0
           [failed_read 0; good_read 1; good_read 0; failed_read 0]);
    vm_compute; [split; [discriminate | reflexivity] | reflexivity].
Defined.

(** ** Initialisation *)

Lemma init_buses_state {W} (drv : drivers W) config buses w d :
  (init_buses drv config buses (w, d)).2.2 = d.
Proof.
  revert w. induction buses as [|bus rest IH]; intros w; [reflexivity|].
  cbn [init_buses]. unfold bind, ext at 1.
  destruct (arinc429_init drv bus _ w) as [r w1].
  destruct r; try apply IH; reflexivity.
Qed.

Lemma daq_init_state {W} (drv : drivers W) (config : daq_config_t) w d :
  daq_validate_config config = EHMS_OK ->
  exists r w',
    daq_init drv (Some config) (w, d)
    = (r, (w', if result_is_ok r then ready_state else sources_initialized)).
Proof.
  intros Hok.
  unfold daq_init. rewrite Hok. cbv [bind modify_state ext ret].
  pose proof (init_buses_state drv config [0; 1; 2; 3] w
                (daq_init_sources daq_state_zero)) as Hst.
  destruct (init_buses drv config [0; 1; 2; 3]
              (w, daq_init_sources daq_state_zero)) as [r [w1 d1]].
  cbn [fst snd] in Hst. subst d1.
  destruct r;
    try (match goal with
         | |- exists r w', (?a, (?b, _)) = _ => exists a, b; reflexivity
         end).
  destruct (milstd1553_init drv EHMS_1553_RT_ADDRESS w1) as [r2 w2].
  destruct r2;
    match goal with
    | |- exists r w', (?a, (?b, _)) = _ => exists a, b; reflexivity
    end.
Qed.

(** X13.  With a configuration that passes [daq_validate_config],
    [daq_init] leaves one of two module states, whatever the drivers do and
    whatever the state was: if it returns [EHMS_OK], the module is
    initialised, in state [EHMS_STATE_INIT], with zeroed counters and
    snapshots and four active sources; if it returns an error, the module
    is cleared and not initialised.  With a NULL configuration it returns
    [EHMS_ERROR_PARAM] without touching the machine. *)
Theorem daq_init_outcome {W} (drv : drivers W) (config : daq_config_t)
    (m : machine) :
  daq_validate_config config = EHMS_OK ->
  (daq_init drv (Some config) m).2.2
  = (if result_is_ok (daq_init drv (Some config) m).1
     then ready_state else sources_initialized)
  /\ daq_init drv None m = (EHMS_ERROR_PARAM, m).
Proof.
  intros Hok. split; [|reflexivity]. destruct m as [w d].
  destruct (daq_init_state drv config w d Hok) as (r & w' & ->).
  reflexivity.
Qed.

Lemma daq_init_outcome_witness :
  (daq_init (test_drivers [] 1000 test_ts) (Some test_config)
     ([], daq_state_zero)).2.2
  = (if result_is_ok
         (daq_init (test_drivers [] 1000 test_ts) (Some test_config)
            ([], daq_state_zero)).1
     then ready_state else sources_initialized)
  /\ daq_init (test_drivers [] 1000 test_ts) None ([], daq_state_zero)
     = (EHMS_ERROR_PARAM, ([], daq_state_zero)).
Proof.
  apply (daq_init_outcome (test_drivers [] 1000 test_ts) test_config
           ([], daq_state_zero)).
  reflexivity.
Defined.

(** ** Effects of computations on the module state *)

Section Respects.
Context {W : Type} (R : daq_module_state_t -> daq_module_state_t -> Prop).
Hypothesis R_refl : forall d, R d d.
Hypothesis R_trans : forall d1 d2 d3, R d1 d2 -> R d2 d3 -> R d1 d3.

Lemma respects_ret {A} (a : A) : respects (W:=W) R (ret a).
Proof. intros w d. apply R_refl. Qed.

Lemma respects_bind {A B} (c : @M W A) (k : A -> @M W B) :
  respects R c -> (forall a, respects R (k a)) -> respects R (bind c k).
Proof.
  intros Hc Hk w d. unfold bind. specialize (Hc w d).
  destruct (c (w, d)) as [a [w1 d1]]. cbn [fst snd] in Hc.
  eapply R_trans; [exact Hc | apply Hk].
Qed.

Lemma respects_ext {A} (f : W -> A * W) : respects R (ext f).
Proof. intros w d. unfold ext. destruct (f w). apply R_refl. Qed.

Lemma respects_ext_ (f : W -> W) : respects R (ext_ f).
Proof. intros w d. apply R_refl. Qed.

Lemma respects_get_state : respects (W:=W) R get_state.
Proof. intros w d. apply R_refl. Qed.

Lemma respects_modify_state f :
  (forall d, R d (f d)) -> respects (W:=W) R (modify_state f).
Proof. intros Hf w d. apply Hf. Qed.

Lemma respects_for_each {A B} (l : list A) (body : A -> B -> @M W B) acc :
  (forall x b, respects R (body x b)) -> respects R (for_each l body acc).
Proof.
  intros Hbody. revert acc. induction l as [|x l IH]; intros acc.
  - apply respects_ret.
  - cbn [for_each]. apply respects_bind; [apply Hbody | apply IH].
Qed.

Context (drv : drivers W) (eng : Z).
Hypothesis R_set_param : forall p x d, R d (set_param eng p x d).
Hypothesis R_statistics :
  forall ok d, R d (daq_update_statistics 0 ok d).
Hypothesis R_crc32 :
  forall f d,
    R d (set_engine_data d
           (alter (fun s => set_crc32 s (f s)) (Z.to_nat eng) (engine_data d))).
Hypothesis R_sample_time :
  forall ts d,
    R d (set_engine_data d
           (alter (fun s => set_sample_time s ts) (Z.to_nat eng)
              (engine_data d))).

Lemma respects_read_arinc429 :
  respects R (daq_read_arinc429_data drv 0 eng).
Proof.
  unfold daq_read_arinc429_data. apply respects_for_each. intros p result.
  destruct (_ =? _); [|apply respects_ret].
  apply respects_bind; [apply respects_ext|]. intros [r word].
  destruct r;
    repeat first
      [ apply respects_bind; [|intros ?]
      | apply respects_ext
      | apply respects_ret
      | apply respects_modify_state; intros d;
        first [apply R_set_param | apply R_statistics] ].
Qed.

Lemma respects_read_1553 : respects R (daq_read_1553_data drv eng).
Proof.
  unfold daq_read_1553_data.
  apply respects_bind; [apply respects_ext|]. intros [r msg].
  destruct r;
    repeat first
      [ apply respects_bind; [|intros ?]
      | apply respects_ret
      | apply respects_modify_state; intros d; apply R_set_param ].
Qed.

Lemma respects_validate p : respects R (daq_validate_parameter drv eng p).
Proof.
  unfold daq_validate_parameter.
  apply respects_bind; [apply respects_get_state|]. intros d.
  apply respects_bind; [apply respects_ext|]. intros [r limits].
  destruct r; try apply respects_ret.
  destruct (_ || _); [|apply respects_ret].
  apply respects_bind; [|intros ?; apply respects_ret].
  apply respects_modify_state. intros d0. apply R_set_param.
Qed.

Lemma respects_staleness p : respects R (daq_check_staleness drv eng p).
Proof.
  unfold daq_check_staleness.
  apply respects_bind; [apply respects_get_state|]. intros d.
  destruct (_ >? _); [|apply respects_ret].
  apply respects_bind; [|intros ?; apply respects_ret].
  destruct (status _); try apply respects_ret.
  apply respects_modify_state. intros d0. apply R_set_param.
Qed.

Lemma respects_sweep :
  respects R
    (for_each param_indices
       (fun p (_ : unit) =>
          bind (daq_validate_parameter drv eng p)
            (fun _ => bind (daq_check_staleness drv eng p)
                        (fun _ => ret tt))) tt).
Proof.
  apply respects_for_each. intros p [].
  apply respects_bind; [apply respects_validate|]. intros _.
  apply respects_bind; [apply respects_staleness|]. intros _.
  apply respects_ret.
Qed.

Lemma respects_acquire_engine : respects R (acquire_engine drv eng).
Proof.
  unfold acquire_engine.
  apply respects_bind; [apply respects_read_arinc429|]. intros r1.
  apply respects_bind.
  { destruct r1; try apply respects_ret;
      intros w d; rewrite daq_read_backup_is_noop; apply R_refl. }
  intros r2. apply respects_bind.
  { destruct r2; try apply respects_ret. apply respects_read_1553. }
  intros _. apply respects_bind; [apply respects_sweep|]. intros _.
  apply respects_bind.
  { apply respects_modify_state. intros d. apply R_crc32. }
  intros _. apply respects_bind; [apply respects_ext|]. intros ts.
  apply respects_modify_state. intros d. apply R_sample_time.
Qed.

End Respects.

(** ** What a cycle leaves alone *)

Lemma slot_frame_refl s : slot_frame s s.
Proof. repeat split. Qed.

Lemma acquisition_frame_refl d : acquisition_frame d d.
Proof. repeat split. Qed.

Lemma acquisition_frame_trans d1 d2 d3 :
  acquisition_frame d1 d2 -> acquisition_frame d2 d3 ->
  acquisition_frame d1 d3.
Proof.
  intros (A1 & A2 & A3 & A4 & A5 & A6 & A7 & A8 & A9)
         (B1 & B2 & B3 & B4 & B5 & B6 & B7 & B8 & B9).
  repeat split; try congruence.
  - intros b Hb. rewrite B7, A7 by exact Hb. reflexivity.
  - destruct (A9 e) as (E & _), (B9 e) as (F & _). congruence.
  - destruct (A9 e) as (_ & E & _), (B9 e) as (_ & F & _). congruence.
  - destruct (A9 e) as (_ & _ & E & _), (B9 e) as (_ & _ & F & _). congruence.
  - destruct (A9 e) as (_ & _ & _ & E), (B9 e) as (_ & _ & _ & F). congruence.
Qed.

Lemma engine_update_frame d (i : nat) f :
  (forall s, slot_frame s (f s)) ->
  acquisition_frame d (set_engine_data d (alter f i (engine_data d))).
Proof.
  intros Hf. unfold acquisition_frame, set_engine_data.
  cbn [is_initialized state last_error cycle_count current_time_ms sources
       engine_data].
  repeat split; try apply length_alter;
    rewrite list_lookup_total_alter; destruct (decide _) as [[-> _] | _];
    try reflexivity; apply Hf.
Qed.

Lemma set_param_frame eng p x d : acquisition_frame d (set_param eng p x d).
Proof.
  unfold set_param. apply engine_update_frame. intros s.
  unfold slot_frame, set_parameters. cbn. repeat split.
  apply length_insert.
Qed.

Lemma statistics_frame ok d :
  acquisition_frame d (daq_update_statistics 0 ok d).
Proof.
  unfold daq_update_statistics. cbn [Z.ltb Z.compare EHMS_ARINC429_BUS_COUNT].
  unfold acquisition_frame, set_sources.
  cbn [is_initialized state last_error cycle_count current_time_ms sources
       engine_data].
  repeat split; [apply length_alter|].
  intros b Hb. apply list_lookup_alter_ne. cbn. lia.
Qed.

Lemma acquire_engine_frame {W} (drv : drivers W) eng :
  respects acquisition_frame (acquire_engine drv eng).
Proof.
  apply respects_acquire_engine.
  - apply acquisition_frame_refl.
  - apply acquisition_frame_trans.
  - intros p x d. apply set_param_frame.
  - apply statistics_frame.
  - intros f d. apply engine_update_frame. intros s. repeat split.
  - intros ts d. apply engine_update_frame. intros s. repeat split.
Qed.


(** The result and the state of one cycle, in terms of the loop. *)
Lemma daq_execute_cycle_unfold {W} (drv : drivers W) w d :
  is_initialized d = true ->
  daq_execute_cycle drv (w, d)
  = (EHMS_OK,
     (engine_loop drv engine_indices
        ((system_get_time_ms drv w).2,
         begin_cycle d (system_get_time_ms drv w).1)).2).
Proof.
  intros Hinit. unfold daq_execute_cycle.
  cbv [bind get_state modify_state ext ret]. rewrite Hinit. cbn [negb].
  destruct (system_get_time_ms drv w) as [now w1]. cbn [fst snd].
  fold (begin_cycle d now).
  destruct (engine_loop drv engine_indices (w1, begin_cycle d now))
    as [[] m']. reflexivity.
Qed.


(** ** Members that are never written *)






(** ** Valid samples are fresh *)

Lemma daq_shape_ok d : daq_shape d = true -> shape_ok d.
Proof.
  unfold daq_shape, shape_ok. intros H.
  apply andb_true_iff in H as [Hlen Hall].
  apply Nat.eqb_eq in Hlen. split; [exact Hlen|]. intros e He.
  rewrite forallb_forall in Hall. apply Nat.eqb_eq, Hall.
  apply list_elem_of_In, list_elem_of_lookup_total_2. lia.
Qed.

Lemma frame_shape d d' : acquisition_frame d d' -> shape_ok d -> shape_ok d'.
Proof.
  intros (_ & _ & _ & _ & _ & _ & _ & Hlen & Hslots) [H1 H2].
  split; [congruence|]. intros e He.
  destruct (Hslots e) as (_ & _ & _ & ->). apply H2, He.
Qed.

Lemma get_set_param_eq eng p x d :
  (Z.to_nat eng < length (engine_data d))%nat ->
  (Z.to_nat p < length (parameters (engine_data d !!! Z.to_nat eng)))%nat ->
  get_param eng p (set_param eng p x d) = x.
Proof.
  intros He Hp. unfold get_param, set_param, set_engine_data.
  cbn [engine_data]. rewrite list_lookup_total_alter_eq by exact He.
  cbn [set_parameters parameters].
  apply list_lookup_total_insert_eq. exact Hp.
Qed.

Lemma get_set_param_ne eng p x d e' p' :
  Z.to_nat e' <> Z.to_nat eng \/ Z.to_nat p' <> Z.to_nat p ->
  get_param e' p' (set_param eng p x d) = get_param e' p' d.
Proof.
  intros Hne. unfold get_param, set_param, set_engine_data.
  cbn [engine_data]. rewrite list_lookup_total_alter.
  destruct (decide _) as [[Heq _] | _]; [|reflexivity].
  cbn [set_parameters parameters]. rewrite <- Heq.
  destruct Hne as [Hne | Hne]; [congruence|].
  apply list_lookup_total_insert_ne. congruence.
Qed.

Lemma validate_result {W} (drv : drivers W) eng p w d :
  (daq_validate_parameter drv eng p (w, d)).2.2 = d
  \/ (daq_validate_parameter drv eng p (w, d)).2.2
     = set_param eng p (set_status (get_param eng p d) EHMS_PARAM_FAILED) d.
Proof.
  unfold daq_validate_parameter. cbv [bind get_state ext ret modify_state].
  destruct (param_db_get_limits drv _ w) as [[r limits] w1].
  destruct r; auto. destruct (_ || _); auto.
Qed.

Lemma staleness_result {W} (drv : drivers W) eng p w d :
  (daq_check_staleness drv eng p (w, d)).2.2
  = if wrap32 (current_time_ms d
               - timestamp_to_ms drv (timestamp (get_param eng p d)))
       >? DAQ_STALE_TIMEOUT_MS
    then match status (get_param eng p d) with
         | EHMS_PARAM_VALID =>
             set_param eng p
               (set_status (get_param eng p d) EHMS_PARAM_STALE) d
         | _ => d
         end
    else d.
Proof.
  unfold daq_check_staleness. cbv [bind get_state ret modify_state].
  destruct (_ >? _); [|reflexivity].
  destruct (status _); reflexivity.
Qed.

Lemma set_param_time eng p x d :
  current_time_ms (set_param eng p x d) = current_time_ms d.
Proof. reflexivity. Qed.

(** One turn of the sweep: the parameter it visits ends up fresh, the
    others are not touched. *)
Lemma sweep_step {W} (drv : drivers W) eng p w d :
  shape_ok d ->
  0 <= eng < EHMS_MAX_ENGINES -> 0 <= p < EHMS_PARAM_COUNT ->
  forall d2,
    d2 = (sweep drv eng [p] (w, d)).2.2 ->
    acquisition_frame d d2
    /\ fresh drv d2 (get_param eng p d2)
    /\ forall p', Z.to_nat p' <> Z.to_nat p ->
                  get_param eng p' d2 = get_param eng p' d.
Proof.
  unfold EHMS_MAX_ENGINES, EHMS_PARAM_COUNT. intros Hshape He Hp d2 Hd2.
  assert (d2 = (daq_check_staleness drv eng p
                  (daq_validate_parameter drv eng p (w, d)).2).2.2) as Hd2'.
  { subst d2. unfold sweep. cbn [for_each]. cbv [bind ret].
    destruct (daq_validate_parameter drv eng p (w, d)) as [r1 m1].
    cbn [snd].
    destruct (daq_check_staleness drv eng p m1) as [r2 m2]. reflexivity. }
  clear Hd2.
  pose proof (validate_result drv eng p w d) as Hv.
  destruct (daq_validate_parameter drv eng p (w, d)) as [r1 [w1 d1]].
  cbn [fst snd] in Hv, Hd2'.
  pose proof (staleness_result drv eng p w1 d1) as Hs.
  rewrite <- Hd2' in Hs. clear Hd2'.
  assert (acquisition_frame d d1
          /\ forall p', Z.to_nat p' <> Z.to_nat p ->
                        get_param eng p' d1 = get_param eng p' d) as [F1 K1].
  { destruct Hv as [-> | ->].
    - split; [apply acquisition_frame_refl | reflexivity].
    - split; [apply set_param_frame|].
      intros p' Hne. apply get_set_param_ne. auto. }
  pose proof (frame_shape d d1 F1 Hshape) as [Hlen1 Hps1].
  assert ((Z.to_nat eng < length (engine_data d1))%nat) as Hin1
    by (rewrite Hlen1; unfold EHMS_MAX_ENGINES; lia).
  assert ((Z.to_nat p
           < length (parameters (engine_data d1 !!! Z.to_nat eng)))%nat)
    as Hin2.
  { rewrite Hps1 by (unfold EHMS_MAX_ENGINES; lia).
    unfold EHMS_PARAM_COUNT. lia. }
  destruct (Z.gtb_spec
              (wrap32 (current_time_ms d1
                       - timestamp_to_ms drv (timestamp (get_param eng p d1))))
              DAQ_STALE_TIMEOUT_MS) as [Hgt | Hle].
  - destruct (status (get_param eng p d1)) eqn:Hst; subst d2.
    + split; [eapply acquisition_frame_trans;
              [exact F1 | apply set_param_frame]|].
      split.
      * unfold fresh. rewrite get_set_param_eq by assumption.
        cbn [set_status status]. discriminate.
      * intros p' Hne. rewrite get_set_param_ne by auto. apply K1, Hne.
    + split; [exact F1|]. split; [|exact K1].
      unfold fresh. rewrite Hst. discriminate.
    + split; [exact F1|]. split; [|exact K1].
      unfold fresh. rewrite Hst. discriminate.
    + split; [exact F1|]. split; [|exact K1].
      unfold fresh. rewrite Hst. discriminate.
    + split; [exact F1|]. split; [|exact K1].
      unfold fresh. rewrite Hst. discriminate.
  - subst d2. split; [exact F1|]. split; [|exact K1].
    intros _. exact Hle.
Qed.

Lemma sweep_cons {W} (drv : drivers W) eng p l m :
  sweep drv eng (p :: l) m = sweep drv eng l (sweep drv eng [p] m).2.
Proof.
  unfold sweep. cbn [for_each]. cbv [bind ret].
  destruct (daq_validate_parameter drv eng p m) as [r1 m1].
  destruct (daq_check_staleness drv eng p m1) as [r2 m2]. reflexivity.
Qed.

Lemma fresh_same_time {W} (drv : drivers W) d d' x :
  current_time_ms d' = current_time_ms d -> fresh drv d x -> fresh drv d' x.
Proof. unfold fresh. intros ->. auto. Qed.

Lemma sweep_fresh {W} (drv : drivers W) eng l :
  0 <= eng < EHMS_MAX_ENGINES ->
  Forall (fun p => 0 <= p < EHMS_PARAM_COUNT) l ->
  forall w d,
    shape_ok d ->
    acquisition_frame d (sweep drv eng l (w, d)).2.2
    /\ forall p,
         0 <= p < EHMS_PARAM_COUNT ->
         fresh drv d (get_param eng p d) \/ p ∈ l ->
         fresh drv (sweep drv eng l (w, d)).2.2
           (get_param eng p (sweep drv eng l (w, d)).2.2).
Proof.
  intros He. induction l as [|x l IH]; intros Hall w d Hshape.
  - cbn. split; [apply acquisition_frame_refl|].
    intros p _ [H | H]; [exact H | inversion H].
  - apply Forall_cons in Hall as [Hx Hall]. rewrite sweep_cons.
    destruct (sweep_step drv eng x w d Hshape He Hx _ eq_refl)
      as (F1 & Hfx & Hkeep).
    destruct (sweep drv eng [x] (w, d)) as [[] [w1 d1]]. cbn [snd] in *.
    destruct (IH Hall w1 d1 (frame_shape _ _ F1 Hshape)) as [F2 Hf2].
    split; [eapply acquisition_frame_trans; eassumption|].
    intros p Hp Hor. apply Hf2; [exact Hp|].
    destruct (Z.eq_dec p x) as [-> | Hne]; [left; exact Hfx|].
    destruct Hor as [Hfresh | Hin].
    + left. rewrite Hkeep by lia.
      apply (fresh_same_time drv d); [apply F1 | exact Hfresh].
    + right. apply elem_of_cons in Hin as [? | Hin]; [congruence | exact Hin].
Qed.

Lemma param_indices_spec p :
  0 <= p < EHMS_PARAM_COUNT -> p ∈ param_indices.
Proof.
  intros Hp. unfold param_indices. apply list_elem_of_fmap.
  exists (Z.to_nat p). split; [lia|]. apply elem_of_seq.
  unfold EHMS_PARAM_COUNT in *. lia.
Qed.

Lemma param_indices_range :
  Forall (fun p => 0 <= p < EHMS_PARAM_COUNT) param_indices.
Proof.
  apply Forall_forall. intros p Hin. unfold param_indices in Hin.
  apply list_elem_of_fmap in Hin as (i & -> & Hi). apply elem_of_seq in Hi.
  unfold EHMS_PARAM_COUNT in *. lia.
Qed.

(** A store into a slot that keeps its parameters keeps every sample. *)
Lemma engine_update_params d (i : nat) f e p :
  (forall s, parameters (f s) = parameters s) ->
  get_param e p (set_engine_data d (alter f i (engine_data d)))
  = get_param e p d.
Proof.
  intros Hf. unfold get_param, set_engine_data. cbn [engine_data].
  rewrite list_lookup_total_alter.
  destruct (decide _) as [[-> _] | _]; [rewrite Hf|]; reflexivity.
Qed.

(** The body of the loop for [eng]: reads that stay within the frame,
    then the sweep, then two stores that keep the parameters. *)
Lemma acquire_engine_steps {W} (drv : drivers W) eng w d :
  exists w3 d3 f1 f2,
    acquisition_frame d d3
    /\ (forall s, parameters (f1 s) = parameters s)
    /\ (forall s, parameters (f2 s) = parameters s)
    /\ (acquire_engine drv eng (w, d)).2.2
       = set_engine_data
           (set_engine_data (sweep drv eng param_indices (w3, d3)).2.2
              (alter f1 (Z.to_nat eng)
                 (engine_data (sweep drv eng param_indices (w3, d3)).2.2)))
           (alter f2 (Z.to_nat eng)
              (engine_data
                 (set_engine_data (sweep drv eng param_indices (w3, d3)).2.2
                    (alter f1 (Z.to_nat eng)
                       (engine_data
                          (sweep drv eng param_indices (w3, d3)).2.2))))).
Proof.
  unfold acquire_engine.
  change (bus_primary (s_param_config !!! 0%nat)) with 0.
  unfold bind at 1.
  pose proof (respects_read_arinc429 acquisition_frame
                acquisition_frame_refl acquisition_frame_trans drv eng
                (fun p x d => set_param_frame eng p x d) statistics_frame w d)
    as F1.
  destruct (daq_read_arinc429_data drv 0 eng (w, d)) as [r1 [w1 d1]].
  cbn [snd] in F1. unfold bind at 1.
  assert (exists r2,
             match r1 with
             | EHMS_OK => ret r1
             | _ => daq_read_arinc429_data drv
                      (bus_backup (s_param_config !!! 0%nat)) eng
             end (w1, d1) = (r2, (w1, d1))) as [r2 ->].
  { destruct r1; try (eexists; reflexivity);
      rewrite daq_read_backup_is_noop; eexists; reflexivity. }
  unfold bind at 1.
  assert (acquisition_frame d1
            (match r2 with
             | EHMS_OK => daq_read_1553_data drv eng
             | _ => ret r2
             end (w1, d1)).2.2) as F3.
  { destruct r2; try apply acquisition_frame_refl.
    apply (respects_read_1553 acquisition_frame acquisition_frame_refl
             acquisition_frame_trans drv eng
             (fun p x d => set_param_frame eng p x d)). }
  destruct (match r2 with
            | EHMS_OK => daq_read_1553_data drv eng
            | _ => ret r2
            end (w1, d1)) as [r3 [w3 d3]].
  cbn [snd] in F3.
  fold (sweep drv eng param_indices). unfold bind at 1.
  exists w3, d3.
  destruct (sweep drv eng param_indices (w3, d3)) as [[] [w4 d4]].
  cbv [bind modify_engine modify_state ext].
  destruct (system_get_timestamp drv w4) as [ts w5]. cbn [snd].
  eexists _, _. split; [eapply acquisition_frame_trans; eassumption|].
  split; [|split; [|reflexivity]]; intros s0; reflexivity.
Qed.

(** After the body of the loop for [eng], every Valid sample of [eng] is
    fresh. *)
Lemma acquire_engine_fresh {W} (drv : drivers W) eng w d :
  shape_ok d -> 0 <= eng < EHMS_MAX_ENGINES ->
  forall p,
    0 <= p < EHMS_PARAM_COUNT ->
    fresh drv (acquire_engine drv eng (w, d)).2.2
      (get_param eng p (acquire_engine drv eng (w, d)).2.2).
Proof.
  intros Hshape He p Hp.
  destruct (acquire_engine_steps drv eng w d)
    as (w3 & d3 & f1 & f2 & F & Hf1 & Hf2 & ->).
  destruct (sweep_fresh drv eng param_indices He param_indices_range
              w3 d3 (frame_shape _ _ F Hshape)) as [_ Hfresh].
  specialize (Hfresh p Hp (or_intror (param_indices_spec p Hp))).
  rewrite !engine_update_params by assumption.
  revert Hfresh. apply fresh_same_time. reflexivity.
Qed.

(** ** Slots of other engines *)

Lemma slot_kept_refl i d : slot_kept i d d.
Proof. split; [apply acquisition_frame_refl | reflexivity]. Qed.

Lemma slot_kept_trans i d1 d2 d3 :
  slot_kept i d1 d2 -> slot_kept i d2 d3 -> slot_kept i d1 d3.
Proof.
  intros [F1 K1] [F2 K2].
  split; [eapply acquisition_frame_trans; eassumption | congruence].
Qed.

Lemma engine_update_slot_kept d (i k : nat) f :
  (forall s, slot_frame s (f s)) -> i <> k ->
  slot_kept i d (set_engine_data d (alter f k (engine_data d))).
Proof.
  intros Hf Hne. split; [apply engine_update_frame, Hf|].
  unfold set_engine_data. cbn [engine_data].
  rewrite list_lookup_total_alter_ne by congruence. reflexivity.
Qed.

Lemma acquire_engine_slot_kept {W} (drv : drivers W) eng (i : nat) :
  i <> Z.to_nat eng -> respects (slot_kept i) (acquire_engine drv eng).
Proof.
  intros Hne. apply respects_acquire_engine.
  - apply slot_kept_refl.
  - apply slot_kept_trans.
  - intros p x d. unfold set_param.
    apply engine_update_slot_kept; [|exact Hne]. intros s.
    unfold slot_frame, set_parameters. cbn. repeat split.
    apply length_insert.
  - intros ok d. split; [apply statistics_frame|].
    unfold daq_update_statistics.
    destruct (_ <? _); reflexivity.
  - intros f d. apply engine_update_slot_kept; [|exact Hne].
    intros s. repeat split.
  - intros ts d. apply engine_update_slot_kept; [|exact Hne].
    intros s. repeat split.
Qed.

Lemma engine_loop_slot_kept {W} (drv : drivers W) engs (i : nat) :
  Forall (fun e => i <> Z.to_nat e) engs ->
  respects (slot_kept i) (engine_loop drv engs).
Proof.
  induction engs as [|eng rest IH]; intros Hall; cbn [engine_loop].
  - apply respects_ret, slot_kept_refl.
  - apply Forall_cons in Hall as [Hne Hall].
    apply respects_bind;
      [apply slot_kept_trans | apply respects_ext, slot_kept_refl|].
    intros n. destruct (_ <? _); [|apply respects_ret, slot_kept_refl].
    apply respects_bind;
      [apply slot_kept_trans | apply acquire_engine_slot_kept, Hne|].
    intros _. apply IH, Hall.
Qed.

Lemma engine_loop_cons {W} (drv : drivers W) e0 rest w d :
  engine_loop drv (e0 :: rest) (w, d)
  = if e0 <? (config_get_engine_count drv w).1
    then engine_loop drv rest
           (acquire_engine drv e0 ((config_get_engine_count drv w).2, d)).2
    else (tt, ((config_get_engine_count drv w).2, d)).
Proof.
  cbn [engine_loop]. cbv [bind ext ret].
  destruct (config_get_engine_count drv w) as [n w1]. cbn [fst snd].
  destruct (e0 <? n); [|reflexivity].
  destruct (acquire_engine drv e0 (w1, d)) as [[] m1]. reflexivity.
Qed.

(** The loop over increasing engine indices, with an engine count that
    does not change during the cycle. *)
Lemma engine_loop_fresh {W} (drv : drivers W) (n : Z) engs :
  (forall w, (config_get_engine_count drv w).1 = n) ->
  increasing engs ->
  Forall (fun e => 0 <= e < EHMS_MAX_ENGINES) engs ->
  forall w d,
    shape_ok d ->
    forall eng p,
      eng ∈ engs -> eng < n -> 0 <= p < EHMS_PARAM_COUNT ->
      fresh drv (engine_loop drv engs (w, d)).2.2
        (get_param eng p (engine_loop drv engs (w, d)).2.2).
Proof.
  intros Hn. induction engs as [|e0 rest IH];
    intros Hsorted Hrange w d Hshape eng p Hin Hlt Hp; [inversion Hin|].
  destruct Hsorted as [Hall Hsorted].
  apply Forall_cons in Hrange as [He0 Hrange].
  rewrite engine_loop_cons, Hn.
  generalize ((config_get_engine_count drv w).2). intros w1.
  destruct (Z.ltb_spec e0 n) as [Hlt0 | Hge0].
  - pose proof (acquire_engine_fresh drv e0 w1 d Hshape He0) as Hfresh0.
    pose proof (acquire_engine_frame drv e0 w1 d) as F0.
    destruct (acquire_engine drv e0 (w1, d)) as [[] [w2 d2]].
    cbn [snd] in Hfresh0, F0 |- *.
    pose proof (frame_shape _ _ F0 Hshape) as Hshape2.
    apply elem_of_cons in Hin as [-> | Hin].
    + assert (Forall (fun e => Z.to_nat e0 <> Z.to_nat e) rest) as Hdiff.
      { rewrite Forall_forall in Hall, Hrange |- *. intros e He.
        specialize (Hall e He). specialize (Hrange e He). lia. }
      destruct (engine_loop_slot_kept drv rest (Z.to_nat e0) Hdiff w2 d2)
        as [F K].
      unfold get_param. rewrite K. fold (get_param e0 p d2).
      apply (fresh_same_time drv d2); [apply F | apply Hfresh0, Hp].
    + apply IH; assumption.
  - exfalso. apply elem_of_cons in Hin as [-> | Hin]; [lia|].
    rewrite Forall_forall in Hall.
    specialize (Hall eng Hin). lia.
Qed.

(** X16.  When the configured engine count [n] (at most 4) does not change
    during the cycle, then after [daq_execute_cycle] every sample of the
    engines [0 .. n-1] that is still marked Valid is fresh: its age, the
    cycle's clock reading minus the sample's timestamp modulo 2^32, is at
    most 100 ms.  This holds whatever the buses and the parameter database
    return. *)
Theorem valid_samples_are_fresh {W} (drv : drivers W) (w : W)
    (d : daq_module_state_t) (n eng p : Z) :
  is_initialized d = true ->
  daq_shape d = true ->
  (forall w', (config_get_engine_count drv w').1 = n) ->
  0 <= eng < n -> n <= EHMS_MAX_ENGINES ->
  0 <= p < EHMS_PARAM_COUNT ->
  status (get_param eng p (daq_execute_cycle drv (w, d)).2.2)
  = EHMS_PARAM_VALID ->
  wrap32
    (current_time_ms (daq_execute_cycle drv (w, d)).2.2
     - timestamp_to_ms drv
         (timestamp (get_param eng p (daq_execute_cycle drv (w, d)).2.2)))
  <= DAQ_STALE_TIMEOUT_MS.
Proof.
  intros Hinit Hshape Hn Heng Hmax Hp.
  rewrite daq_execute_cycle_unfold by exact Hinit. cbn [snd].
  apply (engine_loop_fresh drv n engine_indices Hn).
  - unfold engine_indices. cbn [increasing].
    repeat split; repeat (apply Forall_cons; split; [lia|]);
      apply Forall_nil; exact I.
  - unfold engine_indices, EHMS_MAX_ENGINES.
    repeat (apply Forall_cons; split; [lia|]). apply Forall_nil. exact I.
  - apply daq_shape_ok in Hshape. split; apply Hshape.
  - unfold engine_indices, EHMS_MAX_ENGINES in *.
    assert (eng = 0 \/ eng = 1 \/ eng = 2 \/ eng = 3)
      as [-> | [-> | [-> | ->]]] by lia;
      repeat first [apply list_elem_of_here | apply list_elem_of_further].
  - lia.
  - exact Hp.
Qed.

Lemma valid_samples_are_fresh_witness :
  wrap32
    (current_time_ms
       (daq_execute_cycle (test_drivers [] 1000 test_ts)
          ([], ready_state)).2.2
     - timestamp_to_ms (test_drivers [] 1000 test_ts)
         (timestamp
            (get_param 1 EHMS_PARAM_EGT
               (daq_execute_cycle (test_drivers [] 1000 test_ts)
                  ([], ready_state)).2.2)))
  <= DAQ_STALE_TIMEOUT_MS.
Proof.
  apply (valid_samples_are_fresh (test_drivers [] 1000 test_ts) []
           ready_state 2 1 EHMS_PARAM_EGT).
  - reflexivity.
  - reflexivity.
  - reflexivity.
  - lia.
  - vm_compute. discriminate.
  - vm_compute. split; [discriminate | reflexivity].
  - vm_compute. reflexivity.
Defined.

(** ** Decoding of the words read *)














(** ** A cycle in which every read fails *)
















End AcquisitionFacts.
